(** * grafana_export: folders and dashboards of a Grafana instance rendered
      as Terraform resources

    A shallow embedding of [grafana_export.py].  Python [str] values are
    [string]s, [dict]s used as maps are [gmap]s, [set]s are [gset]s, the
    lists the program accumulates are [list]s, and the HTTP backend is a
    record of functions from requests to responses. *)

From stdpp Require Import base decidable option list sorting gmap strings.
From Stdlib Require Import Ascii String.

(** ** Characters the literals of the source need *)

Definition dq : string := String (ascii_of_nat 34) EmptyString.
Definition nl : string := String (ascii_of_nat 10) EmptyString.
Definition hyphen : ascii := ascii_of_nat 45.
Definition underscore : ascii := ascii_of_nat 95.

(** ** Data model *)

(** A JSON value as [response.json()] yields it. *)
#[local] Unset Elimination Schemes.
Inductive json : Type :=
  | JNull : json
  | JBool : bool -> json
  | JNum : Z -> json
  | JStr : string -> json
  | JArr : list json -> json
  | JObj : list (string * json) -> json.
#[local] Set Elimination Schemes.

(** The dashboard document: the dict under the key [dashboard]. *)
Abbreviation document := (gmap string json).

(** The dict appended to [all_folders] (lines 38-42). *)
Record folder : Type := Folder {
  f_uid : string;
  f_title : string;
  f_parent_uid : option string
}.

(** The dict appended to [all_dashboards] (lines 132-137). *)
Record dashboard : Type := Dashboard {
  d_uid : string;
  d_title : string;
  d_folder_uid : option string;
  d_json : document
}.

(** ** Resource identifiers *)

(** [s.replace('-', '_')]: every hyphen of [s] becomes an underscore. *)
Fixpoint replace_hyphen (s : string) : string :=
  match s with
  | EmptyString => EmptyString
  | String c s' =>
      String (if Ascii.eqb c hyphen then underscore else c) (replace_hyphen s')
  end.

(** Lines 156, 163 and 180: the name of a folder's block,
    [uid.replace('-', '_')]. *)
Definition folder_resource_id (uid : string) : string := replace_hyphen uid.

(** Line 173: the name of a dashboard's block, [f"d_{dashboard['uid']}"]. *)
Definition dashboard_resource_id (uid : string) : string := "d_" +:+ uid.

(** Line 172: [f"dashboards/{dashboard['uid']}.json"]. *)
Definition dashboard_path (uid : string) : string :=
  "dashboards/" +:+ uid +:+ ".json".

(** [c in s] for a character [c]. *)
Fixpoint occurs (c : ascii) (s : string) : bool :=
  match s with
  | EmptyString => false
  | String c' s' => Ascii.eqb c c' || occurs c s'
  end.

(** Truth value of an optional string in a condition: [None] and the empty
    string are false (line 162, [if folder['parent_uid']:]). *)
Definition truthy (o : option string) : option string :=
  match o with
  | Some s => if decide (s = EmptyString) then None else Some s
  | None => None
  end.

(** ** The backend *)

(** What one [requests.get] followed by [raise_for_status] and [.json()]
    comes to: the decoded body, one of the two exceptions the program names
    in its handlers, or any other exception (connection refused, a body that
    is not the expected JSON, ...). *)
Inductive response (A : Type) : Type :=
  | Ok : A -> response A
  | HTTPError : response A
  | Timeout : response A
  | OtherError : response A.
Arguments Ok {A} _.
Arguments HTTPError {A}.
Arguments Timeout {A}.
Arguments OtherError {A}.

(** A folder object of the API: the keys [uid], [title], [parentUid]. *)
Record folder_json : Type := FolderJson {
  fj_uid : string;
  fj_title : string;
  fj_parentUid : option string
}.

(** A search hit: the keys [uid], [title], [folderUid]. *)
Record hit : Type := Hit {
  h_uid : string;
  h_title : string;
  h_folderUid : option string
}.

(** The requests the program sends, each with its response: the top-level
    folder list, a folder by uid, the folders under a parent uid, the
    dashboard search, a dashboard by uid.  The backend is taken to answer a
    repeated request the same way, so a function of the request is enough. *)
Record backend : Type := Backend {
  get_folders : response (list folder_json);
  get_folder : string -> response folder_json;
  get_subfolders : string -> response (list folder_json);
  search : response (list hit);
  get_dashboard : string -> response document
}.

(** How a call ends: it returns, or an exception leaves it. *)
Inductive outcome : Type := Normal | Raised.

Inductive result (A : Type) : Type :=
  | Returns : A -> result A
  | Raises : result A.
Arguments Returns {A} _.
Arguments Raises {A}.

(** A [for] loop whose body threads a state and may raise: the first
    iteration that raises ends the loop. *)
Fixpoint for_each {A S : Type} (body : A -> S -> S * outcome)
    (l : list A) (st : S) : S * outcome :=
  match l with
  | [] => (st, Normal)
  | x :: l' =>
      match body x st with
      | (st', Normal) => for_each body l' st'
      | r => r
      end
  end.

(** ** Folder Fetcher *)

Module Folders.

(** A request of the traversal: line 29 asks for a folder, line 47 for the
    folders under it. *)
Inductive request : Type :=
  | GetFolder : string -> request
  | GetSubfolders : string -> request.

(** The two closure variables of [get_all_folders] (lines 19-20), and the
    requests made so far (the calls of [requests.get] of lines 29 and 47),
    oldest first. *)
Record state : Type := State {
  all_folders : list folder;
  processed_uids : gset string;
  sent : list request
}.

Definition init : state :=
  {| all_folders := []; processed_uids := ∅; sent := [] |}.

(** The state after lines 26-29: the uid is marked and the folder requested. *)
Definition visit (uid : string) (st : state) : state :=
  {| all_folders := all_folders st;
     processed_uids := {[uid]} ∪ processed_uids st;
     sent := sent st ++ [GetFolder uid] |}.

(** The entry lines 38-42 append for a folder object; [folder.get] gives
    [None] for a missing [parentUid]. *)
Definition folder_of (fj : folder_json) : folder :=
  {| f_uid := fj_uid fj;
     f_title := fj_title fj;
     f_parent_uid := fj_parentUid fj |}.

(** The state after lines 38-47: the folder is appended and its subfolders
    requested. *)
Definition record (uid : string) (folder : folder_json) (st : state) : state :=
  {| all_folders := all_folders st ++ [folder_of folder];
     processed_uids := processed_uids st;
     sent := sent st ++ [GetSubfolders uid] |}.

Section Traversal.
Variable api : backend.

(** Lines 22-57.  [limit] is the number of nested calls of the function
    in which the recursion limit of the interpreter leaves room for the
    frames of [requests.get]: one call deeper, the uid is still marked
    (line 26) and the request of line 29 raises [RecursionError].
    [HTTPError] and [Timeout] are handled where they occur (lines 54-57),
    any other exception leaves the call. *)
Fixpoint fetch_folder_and_children (limit : nat) (uid : string) (st : state)
    : state * outcome :=
  if decide (uid ∈ processed_uids st) then (st, Normal)
  else
    let st1 := visit uid st in
    match limit with
    | 0 => (st1, Raised)
    | S limit' =>
        match get_folder api uid with
        | Ok folder =>
            if decide (fj_title folder = "GrafanaCloud") then (st1, Normal)
            else
              let st2 := record uid folder st1 in
              match get_subfolders api uid with
              | Ok subfolders =>
                  for_each (fun subfolder => fetch_folder_and_children limit' (fj_uid subfolder))
                           subfolders st2
              | HTTPError | Timeout => (st2, Normal)
              | OtherError => (st2, Raised)
              end
        | HTTPError | Timeout => (st1, Normal)
        | OtherError => (st1, Raised)
        end
    end.

(** Line 71: the dict comprehension; a later folder of the same title
    replaces an earlier one. *)
Definition folder_map (all_folders_response : list folder_json)
    : gmap string folder_json :=
  foldl (fun m folder => <[fj_title folder := folder]> m) ∅ all_folders_response.

(** Lines 60-96 up to the [return]: the state the traversal ends in, and
    whether an exception reached the handler of line 92.  An unset or empty
    [--folder-names] is false in the test of line 73. *)
Definition traverse (limit : nat) (folder_names : option (list string))
    : state * outcome :=
  match get_folders api with
  | Ok all_folders_response =>
      match all_folders_response with
      | [] => (init, Normal)
      | _ :: _ =>
          match folder_names with
          | None | Some [] =>
              for_each (fun folder => fetch_folder_and_children limit (fj_uid folder))
                       all_folders_response init
          | Some names =>
              for_each (fun name st =>
                          match folder_map all_folders_response !! name with
                          | Some folder => fetch_folder_and_children limit (fj_uid folder) st
                          | None => (st, Normal)
                          end)
                       names init
          end
      end
  | HTTPError | Timeout => (init, Normal)
  | OtherError => (init, Raised)
  end.

(** Lines 17-96: every exception, [RecursionError] among them, is handled
    by line 92 at the latest, and each [return] gives the list accumulated
    so far. *)
Definition get_all_folders (limit : nat) (folder_names : option (list string))
    : list folder :=
  all_folders (traverse limit folder_names).1.

End Traversal.

(** The uids the loops of lines 75-76 and 79-84 start a traversal from. *)
Definition roots (api : backend) (folder_names : option (list string))
    : list string :=
  match get_folders api with
  | Ok all_folders_response =>
      match all_folders_response with
      | [] => []
      | _ :: _ =>
          match folder_names with
          | None | Some [] => fj_uid <$> all_folders_response
          | Some names =>
              omap (fun name => fj_uid <$> folder_map all_folders_response !! name) names
          end
      end
  | _ => []
  end.

(** A uid the traversal can arrive at: a root, or a uid listed under a
    reachable folder that was fetched, is not titled GrafanaCloud, and whose
    subfolders were fetched. *)
Inductive reach (api : backend) (folder_names : option (list string))
    : string -> Prop :=
  | reach_root uid :
      uid ∈ roots api folder_names -> reach api folder_names uid
  | reach_sub uid folder subfolders subfolder :
      reach api folder_names uid ->
      get_folder api uid = Ok folder ->
      fj_title folder ≠ "GrafanaCloud" ->
      get_subfolders api uid = Ok subfolders ->
      subfolder ∈ subfolders ->
      reach api folder_names (fj_uid subfolder).

Section Invariant.
Variable api : backend.
Variable folder_names : option (list string).

(** What holds of the state between two calls: the processed uids are the
    folders requested, no request was made twice, the subfolders were
    requested only of folders fetched and not titled GrafanaCloud, every
    entry of the list is such a folder, and every folder requested can be
    arrived at. *)
Record inv (st : state) : Prop := Inv {
  inv_processed : ∀ uid, uid ∈ processed_uids st ↔ GetFolder uid ∈ sent st;
  inv_nodup : NoDup (sent st);
  inv_subfolders : ∀ uid, GetSubfolders uid ∈ sent st ->
    GetFolder uid ∈ sent st ∧
    ∃ folder, get_folder api uid = Ok folder ∧ fj_title folder ≠ "GrafanaCloud";
  inv_folders : ∀ f, f ∈ all_folders st ->
    ∃ uid folder, GetFolder uid ∈ sent st ∧ get_folder api uid = Ok folder ∧
                  fj_title folder ≠ "GrafanaCloud" ∧ f = folder_of folder;
  inv_reach : ∀ uid, GetFolder uid ∈ sent st -> reach api folder_names uid
}.

(** The state only grows. *)
Definition ext (st st' : state) : Prop :=
  processed_uids st ⊆ processed_uids st' ∧
  (∃ l, sent st' = sent st ++ l) ∧
  (∃ l, all_folders st' = all_folders st ++ l).

(** Every uid listed under [uid] is processed, when [uid] is a folder the
    traversal descends into. *)
Definition closed (st : state) (uid : string) : Prop :=
  ∀ folder subfolders subfolder,
    get_folder api uid = Ok folder -> fj_title folder ≠ "GrafanaCloud" ->
    get_subfolders api uid = Ok subfolders -> subfolder ∈ subfolders ->
    fj_uid subfolder ∈ processed_uids st.

(** The uids processed between two states are closed in the second. *)
Definition fresh_closed (st st' : state) : Prop :=
  ∀ uid, uid ∈ processed_uids st' -> uid ∉ processed_uids st -> closed st' uid.

(** What a call, or a loop of calls, establishes. *)
Definition post (st st' : state) (o : outcome) : Prop :=
  inv st' ∧ ext st st' ∧ (o = Normal -> fresh_closed st st').

End Invariant.

(** All uids the backend names, as roots or under a uid of [U], are in [U]. *)
Definition bounded (api : backend) (U : gset string) : Prop :=
  (∀ all_folders_response folder,
      get_folders api = Ok all_folders_response ->
      folder ∈ all_folders_response -> fj_uid folder ∈ U) ∧
  (∀ uid subfolders subfolder,
      uid ∈ U -> get_subfolders api uid = Ok subfolders ->
      subfolder ∈ subfolders -> fj_uid subfolder ∈ U).

(** No request of the traversal ends in an exception other than the two
    the program handles where they occur. *)
Definition handled (api : backend) : Prop :=
  get_folders api ≠ OtherError ∧
  ∀ uid, get_folder api uid ≠ OtherError ∧ get_subfolders api uid ≠ OtherError.

End Folders.

(** ** Dashboard Fetcher *)

Module Dashboards.

(** Lines 122-130: [editable] is set, then the three keys are deleted when
    present. *)
Definition strip (dashboard_json : document) : document :=
  delete "gnetId" (delete "id" (delete "version"
    (<["editable" := JBool true]> dashboard_json))).

(** The entry lines 132-137 append for a hit and its document; [dashboard.get]
    gives [None] for a missing [folderUid]. *)
Definition dashboard_of (h : hit) (dashboard_json : document) : dashboard :=
  {| d_uid := h_uid h;
     d_title := h_title h;
     d_folder_uid := h_folderUid h;
     d_json := strip dashboard_json |}.

Section Fetch.
Variable api : backend.

(** Lines 113-137: the loop over the search hits, inside the [try] of
    line 109.  [HTTPError] and [Timeout] leave the loop for the handlers
    of lines 139-142, after which line 144 returns the list accumulated so
    far; any other exception leaves the function. *)
Fixpoint fetch_documents (hits : list hit) (all_dashboards : list dashboard)
    : result (list dashboard) :=
  match hits with
  | [] => Returns all_dashboards
  | dashboard :: hits' =>
      match get_dashboard api (h_uid dashboard) with
      | Ok dashboard_json =>
          fetch_documents hits'
            (all_dashboards ++ [dashboard_of dashboard dashboard_json])
      | HTTPError | Timeout => Returns all_dashboards
      | OtherError => Raises
      end
  end.

(** Lines 98-144. *)
Definition get_all_dashboards : result (list dashboard) :=
  match search api with
  | Ok hits => fetch_documents hits []
  | HTTPError | Timeout => Returns []
  | OtherError => Raises
  end.

(** The entries of the hits whose document is fetched. *)
Definition hydrated (hits : list hit) : list dashboard :=
  omap (fun h => match get_dashboard api (h_uid h) with
                 | Ok dashboard_json => Some (dashboard_of h dashboard_json)
                 | _ => None
                 end) hits.

End Fetch.

(** The keys lines 122-130 write or delete. *)
Definition touched : list string := ["editable"; "version"; "id"; "gnetId"].

End Dashboards.

(** ** Selector *)

(** Line 207: [{folder['uid'] for folder in folders}]. *)
Definition target_folder_uids (folders : list folder) : gset string :=
  list_to_set (f_uid <$> folders).

(** [dashboard['folder_uid'] in target_folder_uids]; [None] is no member of
    a set of strings. *)
Definition in_target (uids : gset string) (d : dashboard) : bool :=
  match d_folder_uid d with
  | Some u => bool_decide (u ∈ uids)
  | None => false
  end.

(** Lines 208-211: the list comprehension. *)
Definition target_dashboards (all_dashboards : list dashboard)
    (folders : list folder) : list dashboard :=
  List.filter (in_target (target_folder_uids folders)) all_dashboards.

(** ** The file system *)

(** What the run can do on the disk: whether line 152 can make the
    directory, and whether the file of a path can be opened for writing and
    filled (lines 183-184 and 218-219); when it cannot, the exception leaves
    the function. *)
Record filesystem : Type := Filesystem {
  makedirs : bool;
  writable : string -> bool
}.

(** ** Resource Generator *)

Module Terraform.

(** [sorted(folders, key=lambda x: x['uid'])]: a stable sort on the uid,
    here by insertion from the right.  Python compares the code points of
    two strings, [String.leb] their bytes; on UTF-8 the two orders agree. *)
Fixpoint insert_by_uid (f : folder) (l : list folder) : list folder :=
  match l with
  | [] => [f]
  | g :: l' =>
      if String.leb (f_uid f) (f_uid g) then f :: g :: l'
      else g :: insert_by_uid f l'
  end.

Definition sorted_by_uid (folders : list folder) : list folder :=
  foldr insert_by_uid [] folders.

(** The order of the sort: the uids compared as strings. *)
Definition uid_le (f g : folder) : Prop := String.le (f_uid f) (f_uid g).

(** Lines 156-167: what one iteration of the folder loop appends. *)
Definition folder_resource (folder : folder) : string :=
  let folder_id := folder_resource_id (f_uid folder) in
  "resource " +:+ dq +:+ "grafana_folder" +:+ dq +:+ " " +:+ dq +:+ folder_id +:+ dq +:+ " {" +:+ nl +:+
  "  title = " +:+ dq +:+ f_title folder +:+ dq +:+ nl +:+
  "  uid   = " +:+ dq +:+ f_uid folder +:+ dq +:+ nl +:+
  match truthy (f_parent_uid folder) with
  | Some parent_uid =>
      let parent_id := folder_resource_id parent_uid in
      "  parent_folder_uid = " +:+ dq +:+ parent_uid +:+ dq +:+ nl +:+
      "  depends_on = [grafana_folder." +:+ parent_id +:+ "]" +:+ nl
  | None => EmptyString
  end +:+
  "}" +:+ nl +:+ nl.

(** Lines 186-193: what one iteration of the dashboard loop appends. *)
Definition dashboard_resource (dashboard_id folder_id dashboard_file : string)
    : string :=
  "resource " +:+ dq +:+ "grafana_dashboard" +:+ dq +:+ " " +:+ dq +:+ dashboard_id +:+ dq +:+ " {" +:+ nl +:+
  "  folder = grafana_folder." +:+ folder_id +:+ ".uid" +:+ nl +:+
  "  config_json = jsonencode(jsondecode(file(" +:+ dq +:+ dashboard_file +:+ dq +:+ ")))" +:+ nl +:+
  "  overwrite = true" +:+ nl +:+
  "  depends_on = [grafana_folder." +:+ folder_id +:+ "]" +:+ nl +:+
  "}" +:+ nl +:+ nl.

(** Lines 155-167. *)
Definition folder_loop (folders : list folder) (tf_config : string) : string :=
  foldl (fun tf_config folder => tf_config +:+ folder_resource folder)
        tf_config (sorted_by_uid folders).

(** Lines 170-193.  [written] is the sequence of files written, oldest
    first, each with the document dumped into it.  A dashboard whose
    [folder_uid] is [None] makes line 180 raise, and a file that cannot be
    written makes lines 183-184 raise. *)
Fixpoint dashboard_loop (fs : filesystem) (skip_resources : gset string)
    (dashboards : list dashboard)
    (tf_config : string) (written : list (string * document))
    : list (string * document) * result string :=
  match dashboards with
  | [] => (written, Returns tf_config)
  | dashboard :: dashboards' =>
      let dashboard_file := dashboard_path (d_uid dashboard) in
      let dashboard_id := dashboard_resource_id (d_uid dashboard) in
      if decide (dashboard_id ∈ skip_resources)
      then dashboard_loop fs skip_resources dashboards' tf_config written
      else
        match d_folder_uid dashboard with
        | None => (written, Raises)
        | Some folder_uid =>
            let folder_id := folder_resource_id folder_uid in
            if writable fs dashboard_file
            then dashboard_loop fs skip_resources dashboards'
                   (tf_config +:+ dashboard_resource dashboard_id folder_id dashboard_file)
                   (written ++ [(dashboard_file, d_json dashboard)])
            else (written, Raises)
        end
  end.

(** Lines 146-195.  The set line 149 builds from [--skip-resources] is an
    argument here. *)
Definition generate_terraform (fs : filesystem) (skip_resources : gset string)
    (folders : list folder) (dashboards : list dashboard)
    : list (string * document) * result string :=
  if makedirs fs
  then dashboard_loop fs skip_resources dashboards (folder_loop folders EmptyString) []
  else ([], Raises).

(** *** The generated text as a list of blocks *)

(** The holes of the folder template. *)
Record folder_block : Type := FolderBlock {
  fb_name : string;
  fb_title : string;
  fb_uid : string;
  fb_parent_folder_uid : option string;
  fb_depends_on : option string
}.

(** The holes of the dashboard template. *)
Record dashboard_block : Type := DashboardBlock {
  db_name : string;
  db_folder : string;
  db_file : string
}.

Definition render_folder_block (b : folder_block) : string :=
  "resource " +:+ dq +:+ "grafana_folder" +:+ dq +:+ " " +:+ dq +:+ fb_name b +:+ dq +:+ " {" +:+ nl +:+
  "  title = " +:+ dq +:+ fb_title b +:+ dq +:+ nl +:+
  "  uid   = " +:+ dq +:+ fb_uid b +:+ dq +:+ nl +:+
  from_option (fun p => "  parent_folder_uid = " +:+ dq +:+ p +:+ dq +:+ nl)
              EmptyString (fb_parent_folder_uid b) +:+
  from_option (fun p => "  depends_on = [grafana_folder." +:+ p +:+ "]" +:+ nl)
              EmptyString (fb_depends_on b) +:+
  "}" +:+ nl +:+ nl.

Definition render_dashboard_block (b : dashboard_block) : string :=
  "resource " +:+ dq +:+ "grafana_dashboard" +:+ dq +:+ " " +:+ dq +:+ db_name b +:+ dq +:+ " {" +:+ nl +:+
  "  folder = grafana_folder." +:+ db_folder b +:+ ".uid" +:+ nl +:+
  "  config_json = jsonencode(jsondecode(file(" +:+ dq +:+ db_file b +:+ dq +:+ ")))" +:+ nl +:+
  "  overwrite = true" +:+ nl +:+
  "  depends_on = [grafana_folder." +:+ db_folder b +:+ "]" +:+ nl +:+
  "}" +:+ nl +:+ nl.

Definition joined (l : list string) : string := foldr String.append EmptyString l.

Definition render (fbs : list folder_block) (dbs : list dashboard_block) : string :=
  joined (render_folder_block <$> fbs) +:+ joined (render_dashboard_block <$> dbs).

Definition folder_block_of (f : folder) : folder_block :=
  {| fb_name := folder_resource_id (f_uid f);
     fb_title := f_title f;
     fb_uid := f_uid f;
     fb_parent_folder_uid := truthy (f_parent_uid f);
     fb_depends_on := folder_resource_id <$> truthy (f_parent_uid f) |}.

Definition dashboard_block_of (d : dashboard) : option dashboard_block :=
  match d_folder_uid d with
  | Some folder_uid =>
      Some {| db_name := dashboard_resource_id (d_uid d);
              db_folder := folder_resource_id folder_uid;
              db_file := dashboard_path (d_uid d) |}
  | None => None
  end.

(** The blocks of a list of dashboards, when each of them has a folder. *)
Fixpoint dashboard_blocks (dashboards : list dashboard)
    : option (list dashboard_block) :=
  match dashboards with
  | [] => Some []
  | d :: dashboards' =>
      match dashboard_block_of d, dashboard_blocks dashboards' with
      | Some b, Some bs => Some (b :: bs)
      | _, _ => None
      end
  end.

(** The dashboards the test of line 176 lets through. *)
Definition not_skipped (skip_resources : gset string) (dashboards : list dashboard)
    : list dashboard :=
  List.filter (fun d => bool_decide (dashboard_resource_id (d_uid d) ∉ skip_resources))
              dashboards.

(** The folder blocks of the text, in the order of the text. *)
Definition folder_blocks (folders : list folder) : list folder_block :=
  folder_block_of <$> sorted_by_uid folders.

(** The files written for a list of dashboards, in the order of the list. *)
Definition documents_of (dashboards : list dashboard) : list (string * document) :=
  (fun d => (dashboard_path (d_uid d), d_json d)) <$> dashboards.

(** The files of a list of dashboards can all be written. *)
Definition all_writable (fs : filesystem) (dashboards : list dashboard) : Prop :=
  ∀ d, d ∈ dashboards -> writable fs (dashboard_path (d_uid d)) = true.

(** The string [s] is a part of the text [t]. *)
Definition occurs_in (s t : string) : Prop := ∃ before after, t = before +:+ s +:+ after.

(** Every parent a folder of the list names is a folder of the list. *)
Definition parent_closed (folders : list folder) : Prop :=
  ∀ f p, f ∈ folders -> truthy (f_parent_uid f) = Some p ->
         ∃ g, g ∈ folders ∧ f_uid g = p.

End Terraform.

(** ** Concrete inputs *)

Module Scenario.

(** The folders and dashboards of the scenario of section 8 of the
    specification, and a dashboard outside any folder. *)
Definition team_a : folder := Folder "f1" "Team A" None.
Definition team_a_sub : folder := Folder "f2" "Team A / Sub" (Some "f1").
Definition x : dashboard := Dashboard "d1" "X" (Some "f1") ∅.
Definition y : dashboard := Dashboard "d2" "Y" (Some "other") ∅.
Definition general : dashboard := Dashboard "d3" "Z" None ∅.

(** A disk on which everything can be written. *)
Definition disk : filesystem := {| makedirs := true; writable := fun _ => true |}.

(** A document with instance-assigned fields. *)
Definition x_document : document :=
  <["id" := JNum 7]> (<["version" := JNum 3]> (<["title" := JStr "X"]>
    (<["editable" := JBool false]> ∅))).

(** A backend with the folder f1 over f2 and a reserved folder over f3; it
    answers the request for the document of d1 and fails that of d2. *)
Definition backend1 : backend := {|
  get_folders :=
    Ok [FolderJson "f1" "Team A" None; FolderJson "gc" "GrafanaCloud" None];
  get_folder := fun uid =>
    if decide (uid = "f1") then Ok (FolderJson "f1" "Team A" None)
    else if decide (uid = "f2") then Ok (FolderJson "f2" "Team A / Sub" (Some "f1"))
    else if decide (uid = "f3") then Ok (FolderJson "f3" "Hidden" (Some "gc"))
    else if decide (uid = "gc") then Ok (FolderJson "gc" "GrafanaCloud" None)
    else HTTPError;
  get_subfolders := fun uid =>
    if decide (uid = "f1") then Ok [FolderJson "f2" "Team A / Sub" (Some "f1")]
    else if decide (uid = "f2") then Ok [FolderJson "f1" "Team A" None]
    else if decide (uid = "gc") then Ok [FolderJson "f3" "Hidden" (Some "gc")]
    else Ok [];
  search := Ok [Hit "d1" "X" (Some "f1"); Hit "d2" "Y" (Some "f1");
                Hit "d3" "Z" None];
  get_dashboard := fun uid =>
    if decide (uid = "d1") then Ok x_document else HTTPError
|}.


End Scenario.

(** ** Request URLs *)

Module Urls.

Definition slash : ascii := ascii_of_nat 47.

(** [url.rstrip('/')]: the slashes at the end of [url] are dropped. *)
Fixpoint rstrip_slash (url : string) : string :=
  match url with
  | EmptyString => EmptyString
  | String c url' =>
      match rstrip_slash url' with
      | EmptyString => if Ascii.eqb c slash then EmptyString else String c EmptyString
      | rest => String c rest
      end
  end.

(** Line 27. *)
Definition folder_url (url uid : string) : string :=
  rstrip_slash url +:+ "/api/folders/" +:+ uid.

(** Lines 45 and 60. *)
Definition folders_url (url : string) : string :=
  rstrip_slash url +:+ "/api/folders".

(** Line 103. *)
Definition search_url (url : string) : string :=
  rstrip_slash url +:+ "/api/search".

(** Line 115. *)
Definition dashboard_url (url uid : string) : string :=
  rstrip_slash url +:+ "/api/dashboards/uid/" +:+ uid.

(** [n] slashes. *)
Fixpoint slashes (n : nat) : string :=
  match n with
  | 0 => EmptyString
  | S n' => String slash (slashes n')
  end.

(** The last character of a string, if it has one. *)
Fixpoint last_char (s : string) : option ascii :=
  match s with
  | EmptyString => None
  | String c EmptyString => Some c
  | String _ s' => last_char s'
  end.

End Urls.

(** ** Orchestrator *)

Module Main.

(** What a file holds: a dashboard document dumped as JSON, or the text of
    the configuration. *)
Inductive content : Type :=
  | Json : document -> content
  | Text : string -> content.

(** Lines 197-227, without the progress lines printed: the files written,
    oldest first, and how the run ends.  [get_all_folders] lets no
    exception out; an exception out of [get_all_dashboards], of
    [generate_terraform] or of the writing of [grafana.tf] is none of the
    two that lines 224-227 handle, so it ends the run. *)
Definition main (api : backend) (fs : filesystem) (limit : nat)
    (folder_names : option (list string)) (skip_resources : gset string)
    : list (string * content) * outcome :=
  let folders := Folders.get_all_folders api limit folder_names in
  match Dashboards.get_all_dashboards api with
  | Raises => ([], Raised)
  | Returns all_dashboards =>
      let target_dashboards := target_dashboards all_dashboards folders in
      match Terraform.generate_terraform fs skip_resources folders target_dashboards with
      | (written, Returns tf_output) =>
          if writable fs "grafana.tf"
          then ((prod_map id Json <$> written) ++ [("grafana.tf", Text tf_output)],
                Normal)
          else (prod_map id Json <$> written, Raised)
      | (written, Raises) => (prod_map id Json <$> written, Raised)
      end
  end.

End Main.

(** ** More on the traversal *)

Module Exported.
Import Folders.

(** The entry of [all_folders] a request stands for: the subfolders are
    requested right after the folder is appended. *)
Definition entry (api : backend) (r : request) : option folder :=
  match r with
  | GetSubfolders uid =>
      match get_folder api uid with
      | Ok folder => Some (folder_of folder)
      | _ => None
      end
  | GetFolder _ => None
  end.

(** Where a requested uid comes from: the roots, or the answer to a request
    for subfolders sent before. *)
Definition origin (api : backend) (folder_names : option (list string))
    (st : state) (uid : string) : Prop :=
  uid ∈ roots api folder_names ∨
  ∃ parent subfolders subfolder,
    GetSubfolders parent ∈ sent st ∧ get_subfolders api parent = Ok subfolders ∧
    subfolder ∈ subfolders ∧ fj_uid subfolder = uid.

(** What holds of the list and the requests between two calls. *)
Record inv2 (api : backend) (folder_names : option (list string)) (st : state)
    : Prop := Inv2 {
  inv2_folders : all_folders st = omap (entry api) (sent st);
  inv2_origin : ∀ uid, GetFolder uid ∈ sent st -> origin api folder_names st uid
}.

(** The subfolders were requested of every folder that was requested, is
    fetched and is not titled GrafanaCloud. *)
Definition descended (api : backend) (st : state) : Prop :=
  ∀ uid folder,
    GetFolder uid ∈ sent st -> get_folder api uid = Ok folder ->
    fj_title folder ≠ "GrafanaCloud" -> GetSubfolders uid ∈ sent st.

(** The backend answers the request for a folder with the folder of that
    uid. *)
Definition faithful (api : backend) : Prop :=
  ∀ uid folder, get_folder api uid = Ok folder -> fj_uid folder = uid.

(** A folder that names a parent is no root and is listed under that parent
    only. *)
Definition listed_under_parent (api : backend) (folder_names : option (list string))
    : Prop :=
  ∀ uid folder p,
    get_folder api uid = Ok folder -> truthy (fj_parentUid folder) = Some p ->
    (uid ∉ roots api folder_names) ∧
    (∀ parent subfolders subfolder,
       get_subfolders api parent = Ok subfolders -> subfolder ∈ subfolders ->
       fj_uid subfolder = uid -> parent = p).

(** The names of [--folder-names] that are titles of the folder list. *)
Definition matched (all_folders_response : list folder_json) (names : list string)
    : list string :=
  List.filter (fun name => bool_decide (name ∈ fj_title <$> all_folders_response)) names.

End Exported.

(** ** The skip set *)

Module Skip.

Definition comma : ascii := ascii_of_nat 44.

(** [s.split(',')]: the parts of [s] between its commas; there is always at
    least one part. *)
Fixpoint split_comma (s : string) : list string :=
  match s with
  | EmptyString => [EmptyString]
  | String c s' =>
      if Ascii.eqb c comma then EmptyString :: split_comma s'
      else
        match split_comma s' with
        | part :: parts => String c part :: parts
        | [] => [String c EmptyString]
        end
  end.

(** [','.join(parts)]. *)
Fixpoint join_comma (parts : list string) : string :=
  match parts with
  | [] => EmptyString
  | [part] => part
  | part :: parts' => part +:+ String comma (join_comma parts')
  end.

(** The number of commas of a string. *)
Fixpoint commas (s : string) : nat :=
  match s with
  | EmptyString => 0
  | String c s' => (if Ascii.eqb c comma then 1 else 0) + commas s'
  end.

Section Parse.
(** [str.strip], which takes the white space off both ends of a string. *)
Variable strip : string -> string.

(** Line 149: the set of the stripped parts of [--skip-resources], empty
    when the option is unset or the empty string. *)
Definition skip_resources (arg : option string) : gset string :=
  match arg with
  | Some s =>
      if decide (s = EmptyString) then ∅
      else list_to_set (strip <$> split_comma s)
  | None => ∅
  end.

End Parse.

End Skip.

(** ** More concrete inputs *)

Module Cases.

(** A backend whose connection breaks on the document of d2, and on the
    subfolders of f2. *)
Definition backend2 : backend := {|
  get_folders :=
    Ok [FolderJson "f1" "Team A" None; FolderJson "f9" "Team A" None];
  get_folder := fun uid =>
    if decide (uid = "f1") then Ok (FolderJson "f1" "Team A" None)
    else if decide (uid = "f2") then Ok (FolderJson "f2" "Team A / Sub" (Some "f1"))
    else if decide (uid = "f9") then Ok (FolderJson "f9" "Team A" None)
    else HTTPError;
  get_subfolders := fun uid =>
    if decide (uid = "f1") then Ok [FolderJson "f2" "Team A / Sub" (Some "f1")]
    else if decide (uid = "f2") then OtherError
    else Ok [];
  search := Ok [Hit "d1" "X" (Some "f1"); Hit "d2" "Y" (Some "f1")];
  get_dashboard := fun uid =>
    if decide (uid = "d1") then Ok Scenario.x_document else OtherError
|}.

(** A backend that answers every request: f1 over f2, and two dashboards. *)
Definition backend3 : backend := {|
  get_folders := Ok [FolderJson "f1" "Team A" None];
  get_folder := fun uid =>
    if decide (uid = "f1") then Ok (FolderJson "f1" "Team A" None)
    else if decide (uid = "f2") then Ok (FolderJson "f2" "Team A / Sub" (Some "f1"))
    else HTTPError;
  get_subfolders := fun uid =>
    if decide (uid = "f1") then Ok [FolderJson "f2" "Team A / Sub" (Some "f1")]
    else Ok [];
  search := Ok [Hit "d1" "X" (Some "f1"); Hit "d2" "Y" (Some "other")];
  get_dashboard := fun uid =>
    if decide (uid = "d1") then Ok Scenario.x_document
    else if decide (uid = "d2") then Ok ∅
    else HTTPError
|}.

Definition uids3 : gset string := {[ "f1"; "f2" ]}.





End Cases.

(** * Properties *)

(** ** Strings *)

Lemma append_cons (c : ascii) (s1 s2 : string) :
  String c s1 +:+ s2 = String c (s1 +:+ s2).
Proof. reflexivity. Qed.

Lemma append_empty_l (s : string) : EmptyString +:+ s = s.
Proof. reflexivity. Qed.

Lemma append_assoc (s1 s2 s3 : string) :
  (s1 +:+ s2) +:+ s3 = s1 +:+ (s2 +:+ s3).
Proof.
  induction s1 as [|c s1 IH]; [reflexivity|].
  rewrite !append_cons. by rewrite IH.
Qed.

Lemma append_empty_r (s : string) : s +:+ EmptyString = s.
Proof.
  induction s as [|c s IH]; [reflexivity|].
  rewrite append_cons. by rewrite IH.
Qed.

Lemma replace_hyphen_length (s : string) :
  String.length (replace_hyphen s) = String.length s.
Proof.
  induction s as [|c s IH]; [reflexivity|].
  cbn [replace_hyphen String.length]. by rewrite IH.
Qed.

Lemma replace_hyphen_no_hyphen (s : string) :
  occurs hyphen (replace_hyphen s) = false.
Proof.
  induction s as [|c s IH]; [reflexivity|].
  cbn [replace_hyphen occurs]. rewrite IH, orb_false_r.
  destruct (Ascii.eqb_spec c hyphen) as [->|Hc]; [reflexivity|].
  apply Ascii.eqb_neq. congruence.
Qed.

(** A string without hyphens is left as it is. *)
Lemma replace_hyphen_id (s : string) :
  occurs hyphen s = false -> replace_hyphen s = s.
Proof.
  induction s as [|c s IH]; [reflexivity|].
  cbn [replace_hyphen occurs].
  intros [Hc Hs]%orb_false_iff. rewrite (IH Hs).
  rewrite Ascii.eqb_sym in Hc. by rewrite Hc.
Qed.

Lemma replace_hyphen_inj (s1 s2 : string) :
  occurs underscore s1 = false -> occurs underscore s2 = false ->
  replace_hyphen s1 = replace_hyphen s2 -> s1 = s2.
Proof.
  revert s2. induction s1 as [|c1 s1 IH]; intros [|c2 s2];
    cbn [replace_hyphen occurs]; try done.
  intros [H1 Hs1]%orb_false_iff [H2 Hs2]%orb_false_iff Heq.
  injection Heq as Hc Hs. f_equal; [|by apply IH].
  apply Ascii.eqb_neq in H1, H2.
  destruct (Ascii.eqb_spec c1 hyphen) as [->|N1], (Ascii.eqb_spec c2 hyphen) as [->|N2];
    congruence.
Qed.

(** ** Resource identifiers *)




Lemma append_length (s1 s2 : string) :
  String.length (s1 +:+ s2) = String.length s1 + String.length s2.
Proof.
  induction s1 as [|c s1 IH]; [reflexivity|].
  rewrite append_cons. cbn [String.length]. by rewrite IH.
Qed.

Lemma append_inj_r (s1 s2 t : string) : s1 +:+ t = s2 +:+ t -> s1 = s2.
Proof.
  revert s2. induction s1 as [|c1 s1 IH]; intros [|c2 s2] H; [done|..].
  - apply (f_equal String.length) in H.
    rewrite !append_length in H. cbn [String.length] in H. lia.
  - apply (f_equal String.length) in H.
    rewrite !append_length in H. cbn [String.length] in H. lia.
  - rewrite !append_cons in H. injection H as -> H. f_equal. by apply IH.
Qed.

Lemma dashboard_path_inj (uid1 uid2 : string) :
  dashboard_path uid1 = dashboard_path uid2 -> uid1 = uid2.
Proof.
  unfold dashboard_path. intros H.
  apply String.app_inj in H. by apply append_inj_r in H.
Qed.


(** ** Sorting by uid *)

Section Sorting.
Import Terraform.

Lemma insert_by_uid_perm f l : insert_by_uid f l ≡ₚ f :: l.
Proof.
  induction l as [|g l IH]; [done|]. cbn [insert_by_uid].
  destruct (String.leb _ _); [done|].
  rewrite IH. apply Permutation_swap.
Qed.

Lemma sorted_by_uid_perm l : sorted_by_uid l ≡ₚ l.
Proof.
  induction l as [|f l IH]; [done|].
  cbn [sorted_by_uid foldr]. rewrite insert_by_uid_perm.
  by constructor.
Qed.

Lemma insert_by_uid_hd f g l :
  uid_le g f -> HdRel uid_le g l -> HdRel uid_le g (insert_by_uid f l).
Proof.
  intros Hgf Hl. destruct l as [|h l]; cbn [insert_by_uid]; [by constructor|].
  destruct (String.leb _ _); constructor; [done|]. by inversion Hl.
Qed.

Lemma insert_by_uid_sorted f l :
  Sorted uid_le l -> Sorted uid_le (insert_by_uid f l).
Proof.
  induction 1 as [|g l Hl IH Hg]; cbn [insert_by_uid]; [by repeat constructor|].
  destruct (String.leb (f_uid f) (f_uid g)) eqn:E.
  - constructor; [by constructor|]. constructor.
    unfold uid_le, String.le. by rewrite E.
  - constructor; [done|]. apply insert_by_uid_hd; [|done].
    destruct (total String.le (f_uid f) (f_uid g)) as [H|H]; [|done].
    unfold String.le in H. by rewrite E in H.
Qed.

Lemma sorted_by_uid_sorted l : Sorted uid_le (sorted_by_uid l).
Proof.
  induction l as [|f l IH]; [constructor|].
  cbn [sorted_by_uid foldr]. by apply insert_by_uid_sorted.
Qed.

(** The sort is stable: folders of one uid keep their order. *)
Lemma insert_by_uid_stable uid f l :
  Sorted uid_le l ->
  List.filter (fun g => bool_decide (f_uid g = uid)) (insert_by_uid f l) =
  List.filter (fun g => bool_decide (f_uid g = uid)) (f :: l).
Proof.
  induction 1 as [|g l Hl IH Hg]; [done|]. cbn [insert_by_uid].
  destruct (String.leb (f_uid f) (f_uid g)) eqn:E; [done|].
  cbn [List.filter] in *. rewrite IH.
  destruct (bool_decide_reflect (f_uid g = uid)) as [Hgu|Hgu],
           (bool_decide_reflect (f_uid f = uid)) as [Hfu|Hfu]; try done.
  exfalso. rewrite Hgu, Hfu in E.
  pose proof (reflexivity (R := String.le) uid) as Hr.
  unfold String.le in Hr. by rewrite E in Hr.
Qed.

Lemma sorted_by_uid_stable uid l :
  List.filter (fun g => bool_decide (f_uid g = uid)) (sorted_by_uid l) =
  List.filter (fun g => bool_decide (f_uid g = uid)) l.
Proof.
  induction l as [|f l IH]; [done|].
  cbn [sorted_by_uid foldr].
  rewrite insert_by_uid_stable by apply sorted_by_uid_sorted.
  cbn [List.filter]. fold (sorted_by_uid l). by rewrite IH.
Qed.

End Sorting.

(** ** Resource Generator *)

Section Generator.
Import Terraform.

Lemma joined_cons x l : joined (x :: l) = x +:+ joined l.
Proof. reflexivity. Qed.

Lemma joined_app (l1 l2 : list string) :
  joined (l1 ++ l2) = joined l1 +:+ joined l2.
Proof.
  induction l1 as [|x l1 IH]; [reflexivity|].
  rewrite <- app_comm_cons, !joined_cons, IH. by rewrite append_assoc.
Qed.

Lemma foldl_append {A} (g : A -> string) l tf_config :
  foldl (fun tf_config x => tf_config +:+ g x) tf_config l =
  tf_config +:+ joined (g <$> l).
Proof.
  revert tf_config. induction l as [|x l IH]; intros tf_config.
  - cbn. by rewrite append_empty_r.
  - cbn [foldl]. rewrite IH, fmap_cons, joined_cons.
    by rewrite append_assoc.
Qed.

(** The text of a folder is its block, rendered. *)
Lemma folder_resource_render f :
  folder_resource f = render_folder_block (folder_block_of f).
Proof.
  unfold folder_resource, render_folder_block, folder_block_of.
  cbn [fb_name fb_title fb_uid fb_parent_folder_uid fb_depends_on].
  destruct (truthy (f_parent_uid f)) as [p|]; cbn [from_option fmap option_fmap option_map].
  - by rewrite !append_assoc.
  - reflexivity.
Qed.

Lemma folder_loop_render folders tf_config :
  folder_loop folders tf_config =
  tf_config +:+ joined (render_folder_block <$> folder_blocks folders).
Proof.
  unfold folder_loop, folder_blocks. rewrite foldl_append. f_equal. f_equal.
  rewrite <- list_fmap_compose. apply list_fmap_ext.
  intros _ f _. apply folder_resource_render.
Qed.

Lemma not_skipped_cons skip d ds :
  not_skipped skip (d :: ds) =
  if decide (dashboard_resource_id (d_uid d) ∈ skip) then not_skipped skip ds
  else d :: not_skipped skip ds.
Proof.
  unfold not_skipped. cbn [List.filter].
  destruct (decide _) as [Hin|Hin].
  - by rewrite bool_decide_eq_false_2 by (intros ?; done).
  - by rewrite bool_decide_eq_true_2.
Qed.

Lemma elem_of_not_skipped skip d ds :
  d ∈ not_skipped skip ds ↔ d ∈ ds ∧ dashboard_resource_id (d_uid d) ∉ skip.
Proof.
  unfold not_skipped. rewrite !list_elem_of_In, filter_In, bool_decide_eq_true.
  done.
Qed.

Lemma truthy_Some o p : truthy o = Some p ↔ o = Some p ∧ p ≠ EmptyString.
Proof.
  unfold truthy. destruct o as [s|]; [|by split; [|intros [? _]]].
  destruct (decide (s = EmptyString)) as [->|Hs].
  - split; [done|]. by intros [[= <-] ?].
  - split; [by intros [= <-]|]. by intros [[= <-] _].
Qed.

Lemma truthy_None o : truthy o = None ↔ o = None ∨ o = Some EmptyString.
Proof.
  unfold truthy. destruct o as [s|]; [|by split; [left|]].
  destruct (decide (s = EmptyString)) as [->|Hs].
  - split; [by right|done].
  - split; [done|]. intros [?|[= ->]]; done.
Qed.

(** The text of a dashboard is its block, rendered. *)
Lemma dashboard_resource_render name folder file :
  dashboard_resource name folder file =
  render_dashboard_block {| db_name := name; db_folder := folder; db_file := file |}.
Proof. reflexivity. Qed.

(** The loop returns when every dashboard it lets through has a folder and a
    file that can be written. *)
Lemma dashboard_loop_returns fs skip ds dbs tf_config written :
  dashboard_blocks (not_skipped skip ds) = Some dbs ->
  all_writable fs (not_skipped skip ds) ->
  dashboard_loop fs skip ds tf_config written =
    (written ++ documents_of (not_skipped skip ds),
     Returns (tf_config +:+ joined (render_dashboard_block <$> dbs))).
Proof.
  revert dbs tf_config written. induction ds as [|d ds IH]; intros dbs tf_config written.
  - cbn. intros [= <-] _. cbn. by rewrite app_nil_r, append_empty_r.
  - rewrite not_skipped_cons. cbn [dashboard_loop].
    destruct (decide _) as [Hin|Hin]; [apply IH|].
    cbn [dashboard_blocks]. unfold dashboard_block_of.
    destruct (d_folder_uid d) as [fu|]; [|done].
    destruct (dashboard_blocks _) as [dbs'|] eqn:E; [|done].
    intros [= <-] Hw. rewrite (Hw d) by by left.
    rewrite (IH dbs' _ _ eq_refl) by (intros d' Hd'; apply Hw; by right).
    unfold documents_of. rewrite !fmap_cons, joined_cons.
    rewrite dashboard_resource_render.
    by rewrite <- !app_assoc, append_assoc.
Qed.

(** It raises when one of them has no folder. *)
Lemma dashboard_loop_raises fs skip ds tf_config written :
  dashboard_blocks (not_skipped skip ds) = None ->
  (dashboard_loop fs skip ds tf_config written).2 = Raises.
Proof.
  revert tf_config written. induction ds as [|d ds IH]; intros tf_config written.
  - cbn. done.
  - rewrite not_skipped_cons. cbn [dashboard_loop].
    destruct (decide _) as [Hin|Hin]; [apply IH|].
    cbn [dashboard_blocks]. unfold dashboard_block_of.
    destruct (d_folder_uid d) as [fu|]; [|done].
    destruct (writable fs _); [|done].
    destruct (dashboard_blocks _) as [dbs'|] eqn:E; [done|].
    intros _. by apply IH.
Qed.

(** When it returns, the files of all of them were written. *)
Lemma dashboard_loop_writable fs skip ds tf_config written text :
  (dashboard_loop fs skip ds tf_config written).2 = Returns text ->
  all_writable fs (not_skipped skip ds).
Proof.
  revert tf_config written. induction ds as [|d ds IH]; intros tf_config written.
  - by intros _ d ?%elem_of_nil.
  - rewrite not_skipped_cons. cbn [dashboard_loop].
    destruct (decide _) as [Hin|Hin]; [apply IH|].
    destruct (d_folder_uid d) as [fu|]; [|done].
    destruct (writable fs (dashboard_path (d_uid d))) eqn:Hw; [|done].
    intros Hret d' [->|Hd']%elem_of_cons; [done|]. by eapply IH.
Qed.

Lemma dashboard_blocks_None ds d :
  d ∈ ds -> d_folder_uid d = None -> dashboard_blocks ds = None.
Proof.
  induction ds as [|d' ds IH]; [by intros ?%elem_of_nil|].
  intros [->|Hin]%elem_of_cons Hd; cbn [dashboard_blocks].
  - unfold dashboard_block_of. by rewrite Hd.
  - rewrite (IH Hin Hd). by destruct (dashboard_block_of d').
Qed.

Lemma dashboard_blocks_Some ds :
  (∀ d, d ∈ ds -> is_Some (d_folder_uid d)) -> is_Some (dashboard_blocks ds).
Proof.
  induction ds as [|d ds IH]; intros H; [by eexists|].
  cbn [dashboard_blocks]. unfold dashboard_block_of.
  destruct (H d) as [fu ->]; [by left|].
  destruct IH as [bs ->]; [|by eexists].
  intros d' Hd'. apply H. by right.
Qed.

(** Whatever happens, a file is written only for a dashboard let through. *)
Lemma dashboard_loop_written fs skip ds tf_config written file :
  file ∈ (dashboard_loop fs skip ds tf_config written).1 ->
  file ∈ written ∨ file ∈ documents_of (not_skipped skip ds).
Proof.
  revert tf_config written. induction ds as [|d ds IH]; intros tf_config written.
  - cbn. auto.
  - rewrite not_skipped_cons. cbn [dashboard_loop].
    destruct (decide _) as [Hin|Hin]; [apply IH|].
    destruct (d_folder_uid d) as [fu|]; cbn [fst]; [|auto].
    destruct (writable fs _); cbn [fst]; [|auto].
    unfold documents_of. rewrite fmap_cons.
    intros [[H|H]%elem_of_app|H]%IH; [auto| |].
    + apply list_elem_of_singleton in H as ->. right. left.
    + right. by right.
Qed.

Lemma dashboard_blocks_names ds dbs :
  dashboard_blocks ds = Some dbs ->
  db_name <$> dbs = (fun d => dashboard_resource_id (d_uid d)) <$> ds.
Proof.
  revert dbs. induction ds as [|d ds IH]; intros dbs; [by intros [= <-]|].
  cbn [dashboard_blocks]. unfold dashboard_block_of.
  destruct (d_folder_uid d) as [fu|]; [|done].
  destruct (dashboard_blocks _) as [dbs'|] eqn:E; [|done].
  intros [= <-]. rewrite !fmap_cons. cbn [db_name]. f_equal. by apply IH.
Qed.

(** The blocks of a list of dashboards, one by one. *)
Lemma dashboard_blocks_Forall2 ds dbs :
  dashboard_blocks ds = Some dbs ->
  Forall2 (fun d b =>
             db_name b = dashboard_resource_id (d_uid d) ∧
             db_file b = dashboard_path (d_uid d) ∧
             ∃ folder_uid, d_folder_uid d = Some folder_uid ∧
                           db_folder b = folder_resource_id folder_uid) ds dbs.
Proof.
  revert dbs. induction ds as [|d ds IH]; intros dbs; [intros [= <-]; constructor|].
  cbn [dashboard_blocks]. unfold dashboard_block_of.
  destruct (d_folder_uid d) as [fu|] eqn:Hfu; [|done].
  destruct (dashboard_blocks _) as [dbs'|] eqn:E; [|done].
  intros [= <-]. constructor; [|by apply IH].
  cbn. split; [done|]. split; [done|]. by exists fu.
Qed.

End Generator.

Section GeneratorClaims.
Import Terraform.

Lemma generate_terraform_returns fs skip folders ds dbs :
  makedirs fs = true ->
  all_writable fs (not_skipped skip ds) ->
  dashboard_blocks (not_skipped skip ds) = Some dbs ->
  generate_terraform fs skip folders ds =
    (documents_of (not_skipped skip ds), Returns (render (folder_blocks folders) dbs)).
Proof.
  intros Hmk Hw H. unfold generate_terraform. rewrite Hmk.
  rewrite (dashboard_loop_returns _ _ _ _ _ _ H Hw), folder_loop_render.
  by rewrite append_empty_l.
Qed.

Lemma generate_terraform_inv fs skip folders ds text :
  (generate_terraform fs skip folders ds).2 = Returns text ->
  makedirs fs = true ∧ all_writable fs (not_skipped skip ds) ∧
  ∃ dbs, dashboard_blocks (not_skipped skip ds) = Some dbs ∧
         text = render (folder_blocks folders) dbs.
Proof.
  unfold generate_terraform. destruct (makedirs fs) eqn:Hmk; [|done].
  intros H. pose proof (dashboard_loop_writable _ _ _ _ _ _ H) as Hw.
  split; [done|]. split; [done|].
  destruct (dashboard_blocks (not_skipped skip ds)) as [dbs|] eqn:E.
  - rewrite (dashboard_loop_returns _ _ _ _ _ _ E Hw), folder_loop_render in H.
    rewrite append_empty_l in H. injection H as <-. by exists dbs.
  - by rewrite (dashboard_loop_raises _ _ _ _ _ E) in H.
Qed.

Lemma elem_of_folder_blocks b folders :
  b ∈ folder_blocks folders ↔ ∃ f, f ∈ folders ∧ b = folder_block_of f.
Proof.
  unfold folder_blocks. rewrite list_elem_of_fmap.
  split; intros (f & H1 & H2); exists f.
  - by rewrite <- (sorted_by_uid_perm folders).
  - by rewrite (sorted_by_uid_perm folders).
Qed.

Lemma occurs_in_append_l s t u : occurs_in s t -> occurs_in s (t +:+ u).
Proof.
  intros (before & after & ->). exists before, (after +:+ u).
  by rewrite ?append_assoc.
Qed.

Lemma occurs_in_append_r s t u : occurs_in s u -> occurs_in s (t +:+ u).
Proof.
  intros (before & after & ->). exists (t +:+ before), after.
  by rewrite ?append_assoc.
Qed.

(** A string of a list is a part of the strings of the list put together. *)
Lemma occurs_in_joined s l : s ∈ l -> occurs_in s (joined l).
Proof.
  induction l as [|x l IH]; [by intros ?%elem_of_nil|].
  rewrite joined_cons. intros [->|Hin]%elem_of_cons.
  - exists EmptyString, (joined l). by rewrite append_empty_l.
  - by apply occurs_in_append_r, IH.
Qed.

(** What the block of a folder holds, read off the folder. *)
Lemma folder_block_of_fields f :
  fb_name (folder_block_of f) = folder_resource_id (f_uid f) ∧
  fb_title (folder_block_of f) = f_title f ∧
  fb_uid (folder_block_of f) = f_uid f ∧
  (∀ p, f_parent_uid f = Some p -> p ≠ EmptyString ->
        fb_parent_folder_uid (folder_block_of f) = Some p ∧
        fb_depends_on (folder_block_of f) = Some (folder_resource_id p)) ∧
  (f_parent_uid f = None ∨ f_parent_uid f = Some EmptyString ->
        fb_parent_folder_uid (folder_block_of f) = None ∧
        fb_depends_on (folder_block_of f) = None).
Proof.
  split; [done|]. split; [done|]. split; [done|]. unfold folder_block_of. cbn. split.
  - intros p Hp Hne. by rewrite (proj2 (truthy_Some _ p) (conj Hp Hne)).
  - intros H. by rewrite (proj2 (truthy_None _) H).
Qed.

(** C2, as stated, fails: the folder f2 names the parent f1, no folder f1
    is in the input, and the block of f2 declares the dependency on
    [grafana_folder.f1] all the same. *)
Lemma dependency_on_absent_folder :
  f_parent_uid Scenario.team_a_sub = Some "f1" ∧
  (∀ g, g ∈ [Scenario.team_a_sub] -> f_uid g ≠ "f1") ∧
  generate_terraform Scenario.disk ∅ [Scenario.team_a_sub] [] =
    ([], Returns (render [FolderBlock "f2" "Team A / Sub" "f2" (Some "f1") (Some "f1")] [])).
Proof.
  split; [reflexivity|]. split; [|reflexivity].
  intros g ->%list_elem_of_singleton. discriminate.
Qed.

(** C2, amended: a folder of the input whose parent_uid is present and not
    empty gets a block that declares the parent reference and the
    dependency on the parent's identifier, whether or not the parent is in
    the input, and the text the generator returns is made of these blocks
    and holds the text of each of them;
    when every such parent is a folder of the input, every dependency of a
    folder block names the block of a folder of the input. *)
Theorem folder_dependencies folders :
  (∀ f p, f ∈ folders -> f_parent_uid f = Some p -> p ≠ EmptyString ->
     ∃ b, b ∈ folder_blocks folders ∧
          fb_name b = folder_resource_id (f_uid f) ∧ fb_uid b = f_uid f ∧
          fb_parent_folder_uid b = Some p ∧
          fb_depends_on b = Some (folder_resource_id p) ∧
          occurs_in ("  parent_folder_uid = " +:+ dq +:+ p +:+ dq +:+ nl +:+
                     "  depends_on = [grafana_folder." +:+ folder_resource_id p +:+ "]" +:+ nl)
                    (render_folder_block b)) ∧
  (∀ fs skip ds text,
     (generate_terraform fs skip folders ds).2 = Returns text ->
     (∃ dbs, text = render (folder_blocks folders) dbs) ∧
     ∀ b, b ∈ folder_blocks folders -> occurs_in (render_folder_block b) text) ∧
  ((∀ f p, f ∈ folders -> f_parent_uid f = Some p -> p ≠ EmptyString ->
      ∃ g, g ∈ folders ∧ f_uid g = p) ->
   ∀ b target, b ∈ folder_blocks folders -> fb_depends_on b = Some target ->
     ∃ b', b' ∈ folder_blocks folders ∧ fb_name b' = target).
Proof.
  split; [|split].
  - intros f p Hf Hp Hne. exists (folder_block_of f).
    destruct (folder_block_of_fields f) as (H1 & _ & H3 & H4 & _).
    destruct (H4 p Hp Hne) as [H5 H6].
    split; [apply elem_of_folder_blocks; eauto|].
    split; [done|]. split; [done|]. split; [done|]. split; [done|].
    unfold render_folder_block. rewrite H5, H6. cbn [from_option].
    exists ("resource " +:+ dq +:+ "grafana_folder" +:+ dq +:+ " " +:+ dq +:+
              fb_name (folder_block_of f) +:+ dq +:+ " {" +:+ nl +:+
            "  title = " +:+ dq +:+ fb_title (folder_block_of f) +:+ dq +:+ nl +:+
            "  uid   = " +:+ dq +:+ fb_uid (folder_block_of f) +:+ dq +:+ nl),
           ("}" +:+ nl +:+ nl).
    by rewrite !append_assoc.
  - intros fs skip ds text (_ & _ & dbs & _ & ->)%generate_terraform_inv.
    split; [by exists dbs|]. intros b Hb.
    apply occurs_in_append_l, occurs_in_joined. by apply list_elem_of_fmap_2.
  - intros Hclosed b target (f & Hf & ->)%elem_of_folder_blocks.
    unfold folder_block_of. cbn.
    destruct (truthy (f_parent_uid f)) as [p|] eqn:Hp; [|done].
    apply truthy_Some in Hp as [Hp Hne].
    intros [= <-]. destruct (Hclosed f p Hf Hp Hne) as (g & Hg & <-).
    exists (folder_block_of g). split; [|reflexivity].
    apply elem_of_folder_blocks. eauto.
Qed.

Lemma folder_dependencies_witness :
  (∀ f p, f ∈ [Scenario.team_a_sub; Scenario.team_a] ->
     f_parent_uid f = Some p -> p ≠ EmptyString ->
     ∃ g, g ∈ [Scenario.team_a_sub; Scenario.team_a] ∧ f_uid g = p) ∧
  ∀ b target, b ∈ folder_blocks [Scenario.team_a_sub; Scenario.team_a] ->
    fb_depends_on b = Some target ->
    ∃ b', b' ∈ folder_blocks [Scenario.team_a_sub; Scenario.team_a] ∧
          fb_name b' = target.
Proof.
  assert (H : ∀ f p, f ∈ [Scenario.team_a_sub; Scenario.team_a] ->
     f_parent_uid f = Some p -> p ≠ EmptyString ->
     ∃ g, g ∈ [Scenario.team_a_sub; Scenario.team_a] ∧ f_uid g = p).
  { intros f p Hf Hp _. exists Scenario.team_a.
    split; [by right; left|].
    apply elem_of_cons in Hf as [->|Hf].
    - by injection Hp as <-.
    - apply list_elem_of_singleton in Hf as ->. discriminate. }
  split; [exact H|].
  exact (proj2 (proj2 (folder_dependencies [Scenario.team_a_sub; Scenario.team_a])) H).
Defined.

(** C4, as stated, fails: for a dashboard without folder that is not
    skipped the generator raises and returns no text. *)
Lemma no_text_for_dashboard_without_folder :
  d_folder_uid Scenario.general = None ∧
  generate_terraform Scenario.disk ∅ [Scenario.team_a] [Scenario.general] = ([], Raises).
Proof. split; reflexivity. Qed.

(** C4, amended: when a dashboard of the input has no folder_uid and is
    not skipped, the generator raises (line 180 calls [replace] on [None])
    and returns no text: it has no defensive check. *)
Theorem dashboard_without_folder_raises fs skip folders ds d :
  d ∈ ds -> d_folder_uid d = None ->
  dashboard_resource_id (d_uid d) ∉ skip ->
  (generate_terraform fs skip folders ds).2 = Raises.
Proof.
  intros Hd Hnone Hskip. unfold generate_terraform.
  destruct (makedirs fs); [|done].
  apply dashboard_loop_raises.
  apply (dashboard_blocks_None _ d); [|done].
  by apply elem_of_not_skipped.
Qed.

Lemma dashboard_without_folder_raises_witness :
  (generate_terraform Scenario.disk {["d_d1"]} [Scenario.team_a]
     [Scenario.x; Scenario.general]).2 = Raises.
Proof.
  apply (dashboard_without_folder_raises _ _ _ _ Scenario.general).
  - right. left.
  - reflexivity.
  - cbv [dashboard_resource_id Scenario.general d_uid]. set_solver.
Defined.

(** C6: for an identifier of the skip set, no file is written for the
    dashboard it names and, when the generator returns, no dashboard block
    of the text has that name; the folder blocks of the text are those of
    the folder list, whatever the skip set. *)
Theorem skipped_dashboard_omitted fs skip folders ds id :
  id ∈ skip ->
  (∀ uid, dashboard_resource_id uid = id ->
     dashboard_path uid ∉ (generate_terraform fs skip folders ds).1.*1) ∧
  (∀ text, (generate_terraform fs skip folders ds).2 = Returns text ->
     ∃ dbs, text = render (folder_blocks folders) dbs ∧
            dashboard_blocks (not_skipped skip ds) = Some dbs ∧
            id ∉ db_name <$> dbs) ∧
  (∀ skip' text', (generate_terraform fs skip' folders ds).2 = Returns text' ->
     ∃ dbs', text' = render (folder_blocks folders) dbs').
Proof.
  intros Hid. split; [|split].
  - intros uid <- (file & Hpath & Hfile)%list_elem_of_fmap.
    unfold generate_terraform in Hfile.
    destruct (makedirs fs); [|by apply elem_of_nil in Hfile].
    apply dashboard_loop_written in Hfile as [Hfile|Hfile];
      [by apply elem_of_nil in Hfile|].
    apply list_elem_of_fmap in Hfile as (d & -> & [_ Hd]%elem_of_not_skipped).
    cbn in Hpath. apply dashboard_path_inj in Hpath as ->. done.
  - intros text (_ & _ & dbs & Hdbs & ->)%generate_terraform_inv.
    exists dbs. split; [done|]. split; [done|].
    rewrite (dashboard_blocks_names _ _ Hdbs).
    intros (d & -> & [_ Hd]%elem_of_not_skipped)%list_elem_of_fmap. done.
  - intros skip' text' (_ & _ & dbs' & _ & ->)%generate_terraform_inv. by exists dbs'.
Qed.

Lemma skipped_dashboard_omitted_witness :
  dashboard_path "d1" ∉
    (generate_terraform Scenario.disk {["d_d1"]} [Scenario.team_a]
       [Scenario.x; Scenario.y]).1.*1.
Proof.
  assert (H : "d_d1" ∈ ({["d_d1"]} : gset string)) by set_solver.
  exact (proj1 (skipped_dashboard_omitted Scenario.disk {["d_d1"]} [Scenario.team_a]
                  [Scenario.x; Scenario.y] "d_d1" H) "d1" eq_refl).
Defined.

(** What the text of a folder block declares. *)
Lemma folder_block_declares b :
  occurs_in ("resource " +:+ dq +:+ "grafana_folder" +:+ dq +:+ " " +:+ dq +:+
             fb_name b +:+ dq +:+ " {" +:+ nl) (render_folder_block b) ∧
  occurs_in ("  title = " +:+ dq +:+ fb_title b +:+ dq +:+ nl) (render_folder_block b) ∧
  occurs_in ("  uid   = " +:+ dq +:+ fb_uid b +:+ dq +:+ nl) (render_folder_block b) ∧
  (∀ p, fb_parent_folder_uid b = Some p ->
     occurs_in ("  parent_folder_uid = " +:+ dq +:+ p +:+ dq +:+ nl)
               (render_folder_block b)) ∧
  (∀ target, fb_depends_on b = Some target ->
     occurs_in ("  depends_on = [grafana_folder." +:+ target +:+ "]" +:+ nl)
               (render_folder_block b)) ∧
  (fb_parent_folder_uid b = None -> fb_depends_on b = None ->
     render_folder_block b =
       "resource " +:+ dq +:+ "grafana_folder" +:+ dq +:+ " " +:+ dq +:+
         fb_name b +:+ dq +:+ " {" +:+ nl +:+
       "  title = " +:+ dq +:+ fb_title b +:+ dq +:+ nl +:+
       "  uid   = " +:+ dq +:+ fb_uid b +:+ dq +:+ nl +:+
       "}" +:+ nl +:+ nl).
Proof.
  set (parent := from_option (fun p => "  parent_folder_uid = " +:+ dq +:+ p +:+ dq +:+ nl)
                   EmptyString (fb_parent_folder_uid b)).
  set (depends := from_option (fun p => "  depends_on = [grafana_folder." +:+ p +:+ "]" +:+ nl)
                    EmptyString (fb_depends_on b)).
  set (header := "resource " +:+ dq +:+ "grafana_folder" +:+ dq +:+ " " +:+ dq +:+
                 fb_name b +:+ dq +:+ " {" +:+ nl).
  set (title := "  title = " +:+ dq +:+ fb_title b +:+ dq +:+ nl).
  set (uid := "  uid   = " +:+ dq +:+ fb_uid b +:+ dq +:+ nl).
  assert (Hrender : render_folder_block b =
            header +:+ title +:+ uid +:+ parent +:+ depends +:+ "}" +:+ nl +:+ nl).
  { unfold render_folder_block, header, title, uid. by rewrite ?append_assoc. }
  rewrite Hrender. split; [|split; [|split; [|split; [|split]]]].
  - by exists EmptyString, (title +:+ uid +:+ parent +:+ depends +:+ "}" +:+ nl +:+ nl).
  - exists header, (uid +:+ parent +:+ depends +:+ "}" +:+ nl +:+ nl).
    by rewrite ?append_assoc.
  - exists (header +:+ title), (parent +:+ depends +:+ "}" +:+ nl +:+ nl).
    by rewrite ?append_assoc.
  - intros p Hp. unfold parent. rewrite Hp. cbn [from_option].
    exists (header +:+ title +:+ uid), (depends +:+ "}" +:+ nl +:+ nl).
    by rewrite ?append_assoc.
  - intros target Ht. unfold depends. rewrite Ht. cbn [from_option].
    exists (header +:+ title +:+ uid +:+ parent), ("}" +:+ nl +:+ nl).
    by rewrite ?append_assoc.
  - intros Hp Hd. unfold parent, depends, header, title, uid. rewrite Hp, Hd.
    cbn [from_option]. by rewrite ?append_assoc, ?append_empty_l.
Qed.

(** What the text of a dashboard block declares. *)
Lemma dashboard_block_declares b :
  occurs_in ("resource " +:+ dq +:+ "grafana_dashboard" +:+ dq +:+ " " +:+ dq +:+
             db_name b +:+ dq +:+ " {" +:+ nl) (render_dashboard_block b) ∧
  occurs_in ("  folder = grafana_folder." +:+ db_folder b +:+ ".uid" +:+ nl)
            (render_dashboard_block b) ∧
  occurs_in ("  config_json = jsonencode(jsondecode(file(" +:+ dq +:+ db_file b +:+ dq +:+
             ")))" +:+ nl) (render_dashboard_block b) ∧
  occurs_in ("  overwrite = true" +:+ nl) (render_dashboard_block b) ∧
  occurs_in ("  depends_on = [grafana_folder." +:+ db_folder b +:+ "]" +:+ nl)
            (render_dashboard_block b).
Proof.
  set (header := "resource " +:+ dq +:+ "grafana_dashboard" +:+ dq +:+ " " +:+ dq +:+
                 db_name b +:+ dq +:+ " {" +:+ nl).
  set (folder := "  folder = grafana_folder." +:+ db_folder b +:+ ".uid" +:+ nl).
  set (config := "  config_json = jsonencode(jsondecode(file(" +:+ dq +:+ db_file b +:+ dq +:+
                 ")))" +:+ nl).
  set (overwrite := "  overwrite = true" +:+ nl).
  set (depends := "  depends_on = [grafana_folder." +:+ db_folder b +:+ "]" +:+ nl).
  assert (Hrender : render_dashboard_block b =
            header +:+ folder +:+ config +:+ overwrite +:+ depends +:+ "}" +:+ nl +:+ nl).
  { unfold render_dashboard_block, header, folder, config, overwrite, depends.
    by rewrite ?append_assoc. }
  rewrite Hrender. split; [|split; [|split; [|split]]].
  - by exists EmptyString, (folder +:+ config +:+ overwrite +:+ depends +:+ "}" +:+ nl +:+ nl).
  - exists header, (config +:+ overwrite +:+ depends +:+ "}" +:+ nl +:+ nl).
    by rewrite ?append_assoc.
  - exists (header +:+ folder), (overwrite +:+ depends +:+ "}" +:+ nl +:+ nl).
    by rewrite ?append_assoc.
  - exists (header +:+ folder +:+ config), (depends +:+ "}" +:+ nl +:+ nl).
    by rewrite ?append_assoc.
  - exists (header +:+ folder +:+ config +:+ overwrite), ("}" +:+ nl +:+ nl).
    by rewrite ?append_assoc.
Qed.

(** C7: the folder blocks are those of the input folders, one each, in
    ascending order of the uid; the text of a block declares the title and
    the uid of its folder and, exactly when the folder has a parent (a
    parent_uid that is present and not empty), the parent's uid and the
    dependency on the parent's block, and nothing else but the closing
    brace otherwise; the text the generator returns is
    these blocks followed by one block per dashboard let through, in the
    order of the dashboard list; and it returns when the directory and the
    files can be written and every such dashboard has a folder. *)
Theorem blocks_in_order fs skip folders ds :
  (∃ l, l ≡ₚ folders ∧ Sorted uid_le l ∧
        Forall2 (fun f b =>
                   fb_name b = folder_resource_id (f_uid f) ∧
                   fb_title b = f_title f ∧
                   fb_uid b = f_uid f ∧
                   (∀ p, f_parent_uid f = Some p -> p ≠ EmptyString ->
                         fb_parent_folder_uid b = Some p ∧
                         fb_depends_on b = Some (folder_resource_id p)) ∧
                   (f_parent_uid f = None ∨ f_parent_uid f = Some EmptyString ->
                         fb_parent_folder_uid b = None ∧ fb_depends_on b = None))
                l (folder_blocks folders)) ∧
  Sorted String.le (fb_uid <$> folder_blocks folders) ∧
  (∀ b,
     occurs_in ("resource " +:+ dq +:+ "grafana_folder" +:+ dq +:+ " " +:+ dq +:+
                fb_name b +:+ dq +:+ " {" +:+ nl) (render_folder_block b) ∧
     occurs_in ("  title = " +:+ dq +:+ fb_title b +:+ dq +:+ nl) (render_folder_block b) ∧
     occurs_in ("  uid   = " +:+ dq +:+ fb_uid b +:+ dq +:+ nl) (render_folder_block b) ∧
     (∀ p, fb_parent_folder_uid b = Some p ->
        occurs_in ("  parent_folder_uid = " +:+ dq +:+ p +:+ dq +:+ nl)
                  (render_folder_block b)) ∧
     (∀ target, fb_depends_on b = Some target ->
        occurs_in ("  depends_on = [grafana_folder." +:+ target +:+ "]" +:+ nl)
                  (render_folder_block b)) ∧
     (fb_parent_folder_uid b = None -> fb_depends_on b = None ->
        render_folder_block b =
          "resource " +:+ dq +:+ "grafana_folder" +:+ dq +:+ " " +:+ dq +:+
            fb_name b +:+ dq +:+ " {" +:+ nl +:+
          "  title = " +:+ dq +:+ fb_title b +:+ dq +:+ nl +:+
          "  uid   = " +:+ dq +:+ fb_uid b +:+ dq +:+ nl +:+
          "}" +:+ nl +:+ nl)) ∧
  (∀ b,
     occurs_in ("resource " +:+ dq +:+ "grafana_dashboard" +:+ dq +:+ " " +:+ dq +:+
                db_name b +:+ dq +:+ " {" +:+ nl) (render_dashboard_block b) ∧
     occurs_in ("  folder = grafana_folder." +:+ db_folder b +:+ ".uid" +:+ nl)
               (render_dashboard_block b) ∧
     occurs_in ("  config_json = jsonencode(jsondecode(file(" +:+ dq +:+ db_file b +:+ dq +:+
                ")))" +:+ nl) (render_dashboard_block b) ∧
     occurs_in ("  overwrite = true" +:+ nl) (render_dashboard_block b) ∧
     occurs_in ("  depends_on = [grafana_folder." +:+ db_folder b +:+ "]" +:+ nl)
               (render_dashboard_block b)) ∧
  (∀ text, (generate_terraform fs skip folders ds).2 = Returns text ->
     ∃ dbs, text = render (folder_blocks folders) dbs ∧
            Forall2 (fun d b =>
                       db_name b = dashboard_resource_id (d_uid d) ∧
                       db_file b = dashboard_path (d_uid d) ∧
                       ∃ folder_uid, d_folder_uid d = Some folder_uid ∧
                                     db_folder b = folder_resource_id folder_uid)
                    (not_skipped skip ds) dbs) ∧
  (makedirs fs = true -> all_writable fs (not_skipped skip ds) ->
   (∀ d, d ∈ not_skipped skip ds -> is_Some (d_folder_uid d)) ->
   ∃ text, (generate_terraform fs skip folders ds).2 = Returns text).
Proof.
  split; [|split; [|split; [|split; [|split]]]].
  - exists (sorted_by_uid folders).
    split; [apply sorted_by_uid_perm|]. split; [apply sorted_by_uid_sorted|].
    unfold folder_blocks. apply Forall2_fmap_r, Forall_Forall2_diag, Forall_forall.
    intros f _. apply folder_block_of_fields.
  - unfold folder_blocks. rewrite <- list_fmap_compose.
    apply Sorted_fmap with (R1 := uid_le); [|apply sorted_by_uid_sorted].
    by intros f g.
  - apply folder_block_declares.
  - apply dashboard_block_declares.
  - intros text (_ & _ & dbs & Hdbs & ->)%generate_terraform_inv.
    exists dbs. split; [done|]. by apply dashboard_blocks_Forall2.
  - intros Hmk Hw [dbs Hdbs]%dashboard_blocks_Some.
    rewrite (generate_terraform_returns _ _ _ _ _ Hmk Hw Hdbs). by eexists.
Qed.

Lemma blocks_in_order_witness :
  ∃ text, (generate_terraform Scenario.disk ∅ [Scenario.team_a_sub; Scenario.team_a]
             [Scenario.x]).2 = Returns text.
Proof.
  apply (blocks_in_order Scenario.disk ∅ [Scenario.team_a_sub; Scenario.team_a]
           [Scenario.x]).
  - reflexivity.
  - by intros d _.
  - intros d [Hd _]%elem_of_not_skipped.
    apply list_elem_of_singleton in Hd as ->. by eexists.
Defined.

End GeneratorClaims.

(** ** Selector *)

Section Selector.

Lemma in_target_spec folders d :
  in_target (target_folder_uids folders) d = true ↔
  ∃ f, f ∈ folders ∧ d_folder_uid d = Some (f_uid f).
Proof.
  unfold in_target, target_folder_uids.
  destruct (d_folder_uid d) as [u|].
  - rewrite bool_decide_eq_true, elem_of_list_to_set, list_elem_of_fmap.
    split; intros (f & H1 & H2); exists f; [by subst|]. split; congruence.
  - split; [done|]. by intros (f & _ & ?).
Qed.

(** C5: the selector keeps, in the order of the input, exactly the
    dashboards whose folder_uid is the uid of one of the folders; a
    dashboard without folder or with a folder outside the list is left
    out, and the output is no longer than the input. *)
Theorem target_dashboards_spec all_dashboards folders :
  (∃ keep : dashboard -> bool,
     (∀ d, keep d = true ↔ ∃ f, f ∈ folders ∧ d_folder_uid d = Some (f_uid f)) ∧
     target_dashboards all_dashboards folders = List.filter keep all_dashboards) ∧
  sublist (target_dashboards all_dashboards folders) all_dashboards ∧
  (∀ d, d ∈ target_dashboards all_dashboards folders ↔
        d ∈ all_dashboards ∧ ∃ f, f ∈ folders ∧ d_folder_uid d = Some (f_uid f)) ∧
  (∀ d, d_folder_uid d = None -> d ∉ target_dashboards all_dashboards folders) ∧
  (∀ d u, d_folder_uid d = Some u -> (∀ f, f ∈ folders -> f_uid f ≠ u) ->
          d ∉ target_dashboards all_dashboards folders) ∧
  List.length (target_dashboards all_dashboards folders) ≤ List.length all_dashboards.
Proof.
  assert (Hmem : ∀ d, d ∈ target_dashboards all_dashboards folders ↔
       d ∈ all_dashboards ∧ ∃ f, f ∈ folders ∧ d_folder_uid d = Some (f_uid f)).
  { intros d. unfold target_dashboards.
    by rewrite !list_elem_of_In, filter_In, in_target_spec. }
  split; [|split; [|split; [|split; [|split]]]].
  - exists (in_target (target_folder_uids folders)).
    split; [apply in_target_spec | reflexivity].
  - clear Hmem. unfold target_dashboards.
    induction all_dashboards as [|d l IH]; cbn [List.filter]; [constructor|].
    destruct (in_target _ d); by constructor.
  - exact Hmem.
  - intros d Hd [_ (f & _ & Hf)]%Hmem. congruence.
  - intros d u Hd Hout [_ (f & Hf & Hu)]%Hmem.
    apply (Hout f Hf). congruence.
  - unfold target_dashboards. apply filter_length_le.
Qed.

End Selector.

(** ** Dashboard Fetcher *)

Section DashboardFetcher.
Import Dashboards.
Variable api : backend.

Lemma strip_spec (doc : document) :
  strip doc !! "version" = None ∧
  strip doc !! "id" = None ∧
  strip doc !! "gnetId" = None ∧
  strip doc !! "editable" = Some (JBool true) ∧
  ∀ key, key ∉ touched -> strip doc !! key = doc !! key.
Proof.
  unfold strip, touched. repeat split; [by simplify_map_eq..|].
  intros key Hkey.
  rewrite !lookup_delete_ne, lookup_insert_ne; [done|..];
    intros <-; apply Hkey; set_solver.
Qed.

(** While the documents are fetched the loop goes on. *)
Lemma fetch_documents_app hits1 hits2 all_dashboards :
  (∀ h, h ∈ hits1 -> ∃ doc, get_dashboard api (h_uid h) = Ok doc) ->
  fetch_documents api (hits1 ++ hits2) all_dashboards =
  fetch_documents api hits2 (all_dashboards ++ hydrated api hits1).
Proof.
  revert all_dashboards. induction hits1 as [|h hits1 IH]; intros all_dashboards Hok.
  - cbn. by rewrite app_nil_r.
  - destruct (Hok h) as [doc Hdoc]; [by left|].
    cbn [app fetch_documents hydrated omap list_omap]. rewrite Hdoc.
    rewrite IH by (intros h' Hh'; apply Hok; by right).
    unfold dashboard_of, hydrated. by rewrite <- app_assoc.
Qed.

Lemma hydrated_uids hits :
  (∀ h, h ∈ hits -> ∃ doc, get_dashboard api (h_uid h) = Ok doc) ->
  d_uid <$> hydrated api hits = h_uid <$> hits.
Proof.
  induction hits as [|h hits IH]; intros Hok; [done|].
  destruct (Hok h) as [doc Hdoc]; [by left|].
  cbn [hydrated omap list_omap]. rewrite Hdoc. rewrite !fmap_cons. f_equal.
  apply IH. intros h' Hh'. apply Hok. by right.
Qed.

(** Every entry the loop adds is the entry of a hit and its document. *)
Lemma fetch_documents_elem hits all_dashboards ds d :
  fetch_documents api hits all_dashboards = Returns ds -> d ∈ ds ->
  d ∈ all_dashboards ∨
  ∃ h doc, h ∈ hits ∧ get_dashboard api (h_uid h) = Ok doc ∧ d = dashboard_of h doc.
Proof.
  revert all_dashboards. induction hits as [|h hits IH]; intros all_dashboards.
  - cbn. intros [= <-]. auto.
  - cbn [fetch_documents].
    destruct (get_dashboard api (h_uid h)) as [doc| | |] eqn:Hdoc;
      [|intros [= <-]; auto..|done].
    intros Hds Hd. destruct (IH _ Hds Hd) as [Hin|(h' & doc' & Hh' & Hdoc' & ->)].
    + apply elem_of_app in Hin as [Hin|Hin]; [auto|].
      apply list_elem_of_singleton in Hin as ->. right.
      exists h, doc. split; [by left|done].
    + right. exists h', doc'. split; [by right|done].
Qed.

End DashboardFetcher.

Section DashboardClaims.
Import Dashboards.

(** C3, as stated, fails: the request for the document of d2 ends in an
    HTTP error, and the fetcher returns the dashboards it had so far. *)
Lemma document_failure_is_caught :
  get_dashboard Scenario.backend1 "d2" = HTTPError ∧
  get_all_dashboards Scenario.backend1 =
    Returns [Dashboard "d1" "X" (Some "f1") (strip Scenario.x_document)].
Proof. split; reflexivity. Qed.

(** C3, amended: an HTTP error or a timeout on the document of one
    dashboard is caught inside the fetcher, which stops there and returns
    the dashboards of the hits before it. *)
Theorem document_failure_returns api hits1 h hits2 :
  search api = Ok (hits1 ++ h :: hits2) ->
  (∀ h', h' ∈ hits1 -> ∃ doc, get_dashboard api (h_uid h') = Ok doc) ->
  get_dashboard api (h_uid h) = HTTPError ∨ get_dashboard api (h_uid h) = Timeout ->
  get_all_dashboards api = Returns (hydrated api hits1) ∧
  d_uid <$> hydrated api hits1 = h_uid <$> hits1.
Proof.
  intros Hsearch Hok Hfail. split; [|by apply hydrated_uids].
  unfold get_all_dashboards. rewrite Hsearch.
  rewrite fetch_documents_app by done. cbn [fetch_documents app].
  by destruct Hfail as [-> | ->].
Qed.

Lemma document_failure_returns_witness :
  get_all_dashboards Scenario.backend1 =
    Returns (hydrated Scenario.backend1 [Hit "d1" "X" (Some "f1")]) ∧
  d_uid <$> hydrated Scenario.backend1 [Hit "d1" "X" (Some "f1")] =
    h_uid <$> [Hit "d1" "X" (Some "f1")].
Proof.
  apply (document_failure_returns Scenario.backend1
           [Hit "d1" "X" (Some "f1")] (Hit "d2" "Y" (Some "f1")) [Hit "d3" "Z" None]).
  - reflexivity.
  - intros h' ->%list_elem_of_singleton. by eexists.
  - left. reflexivity.
Defined.

(** C10: a dashboard the fetcher retains is the entry of a search hit; its
    document has none of the keys version, id, gnetId, has editable true,
    and agrees with the fetched document on every other key. *)
Theorem retained_document_stripped api ds d :
  get_all_dashboards api = Returns ds -> d ∈ ds ->
  ∃ hits h doc,
    search api = Ok hits ∧ h ∈ hits ∧ get_dashboard api (h_uid h) = Ok doc ∧
    d_uid d = h_uid h ∧ d_title d = h_title h ∧ d_folder_uid d = h_folderUid h ∧
    d_json d !! "version" = None ∧
    d_json d !! "id" = None ∧
    d_json d !! "gnetId" = None ∧
    d_json d !! "editable" = Some (JBool true) ∧
    ∀ key, key ∉ touched -> d_json d !! key = doc !! key.
Proof.
  unfold get_all_dashboards.
  destruct (search api) as [hits| | |] eqn:Hsearch;
    [|by intros [= <-] ?%elem_of_nil..|done].
  intros Hds Hd.
  destruct (fetch_documents_elem _ _ _ _ _ Hds Hd)
    as [?%elem_of_nil|(h & doc & Hh & Hdoc & ->)]; [done|].
  exists hits, h, doc. repeat (split; [done|]).
  apply strip_spec.
Qed.

Lemma retained_document_stripped_witness :
  d_json (Dashboard "d1" "X" (Some "f1") (strip Scenario.x_document)) !! "id" = None ∧
  d_json (Dashboard "d1" "X" (Some "f1") (strip Scenario.x_document)) !! "title" =
    Some (JStr "X").
Proof.
  destruct (retained_document_stripped Scenario.backend1 _
              (Dashboard "d1" "X" (Some "f1") (strip Scenario.x_document))
              eq_refl)
    as (hits & h & doc & _ & _ & _ & _ & _ & _ & _ & Hid & _ & _ & _); [by left|].
  split; [exact Hid | reflexivity].
Defined.

End DashboardClaims.

(** ** Folder Fetcher *)

Section Loops.
Context {A S : Type}.

Lemma for_each_ext (body body' : A -> S -> S * outcome) l st :
  (∀ x st, body x st = body' x st) -> for_each body l st = for_each body' l st.
Proof.
  intros Hbody. revert st. induction l as [|x l IH]; intros st; [done|].
  cbn [for_each]. rewrite Hbody. destruct (body' x st) as [st1 []]; auto.
Qed.

(** A loop over the images of a list. *)
Lemma for_each_fmap {B} (g : B -> A) (body : A -> S -> S * outcome) l st :
  for_each (fun x => body (g x)) l st = for_each body (g <$> l) st.
Proof.
  revert st. induction l as [|x l IH]; intros st; [done|].
  cbn [for_each fmap list_fmap]. destruct (body (g x) st) as [st1 []]; auto.
Qed.

(** A loop that leaves the state alone where [g] gives nothing. *)
Lemma for_each_omap {B} (g : B -> option A) (body : A -> S -> S * outcome) l st :
  for_each (fun x st => match g x with
                        | Some y => body y st
                        | None => (st, Normal)
                        end) l st =
  for_each body (omap g l) st.
Proof.
  revert st. induction l as [|x l IH]; intros st; [done|].
  cbn [for_each omap list_omap]. destruct (g x) as [y|]; [|apply IH].
  cbn [for_each]. destruct (body y st) as [st1 []]; auto.
Qed.

(** Two bodies that agree on the states the loop goes through give the same
    loop. *)
Lemma for_each_agree (body body' : A -> S -> S * outcome) (J : S -> Prop) l st :
  (∀ x st, x ∈ l -> J st -> body x st = body' x st ∧ J (body x st).1) ->
  J st -> for_each body l st = for_each body' l st ∧ J (for_each body l st).1.
Proof.
  revert st. induction l as [|x l IH]; intros st Hbody HJ; [done|].
  cbn [for_each]. destruct (Hbody x st) as [<- HJ1]; [by left|done|].
  destruct (body x st) as [st1 o1]. destruct o1; [|done].
  apply IH; [|done]. intros y st2 Hy. apply Hbody. by right.
Qed.

(** A loop whose iterations all end normally ends normally. *)
Lemma for_each_all_normal (body : A -> S -> S * outcome) (J : S -> Prop) l st :
  (∀ x st, x ∈ l -> J st -> (body x st).2 = Normal ∧ J (body x st).1) ->
  J st -> (for_each body l st).2 = Normal ∧ J (for_each body l st).1.
Proof.
  revert st. induction l as [|x l IH]; intros st Hbody HJ; [done|].
  cbn [for_each]. destruct (Hbody x st) as [Ho HJ1]; [by left|done|].
  destruct (body x st) as [st1 o1]. cbn in Ho, HJ1. subst o1.
  apply IH; [|done]. intros y st2 Hy. apply Hbody. by right.
Qed.

(** What every iteration keeps, the loop keeps. *)
Lemma for_each_invariant (body : A -> S -> S * outcome) (J : S -> Prop) l st :
  (∀ x st, x ∈ l -> J st -> J (body x st).1) ->
  J st -> J (for_each body l st).1.
Proof.
  revert st. induction l as [|x l IH]; intros st Hbody HJ; [done|].
  cbn [for_each]. assert (HJ1 : J (body x st).1) by (apply Hbody; [by left|done]).
  destruct (body x st) as [st1 o1]. destruct o1; [|done].
  apply IH; [|done]. intros y st2 Hy. apply Hbody. by right.
Qed.

(** What every iteration that ends normally keeps, a loop that ends
    normally keeps. *)
Lemma for_each_normal_invariant (body : A -> S -> S * outcome) (J : S -> Prop) l st st' :
  (∀ x st st', x ∈ l -> J st -> body x st = (st', Normal) -> J st') ->
  J st -> for_each body l st = (st', Normal) -> J st'.
Proof.
  revert st. induction l as [|x l IH]; intros st Hbody HJ.
  - by intros [= <-].
  - cbn [for_each]. destruct (body x st) as [st1 o1] eqn:Hx.
    destruct o1; [|done].
    apply IH; [|by eapply Hbody; [left|..]].
    intros y st2 st3 Hy. apply Hbody. by right.
Qed.

End Loops.

Section Traversal.
Import Folders.
Variable api : backend.
Variable folder_names : option (list string).

#[local] Abbreviation inv := (inv api folder_names).
#[local] Abbreviation post := (post api folder_names).
#[local] Abbreviation closed := (closed api).
#[local] Abbreviation fresh_closed := (fresh_closed api).

Lemma ext_refl st : ext st st.
Proof. split; [done|]. split; exists []; by rewrite app_nil_r. Qed.

Lemma ext_trans st1 st2 st3 : ext st1 st2 -> ext st2 st3 -> ext st1 st3.
Proof.
  intros (H1 & [l1 H2] & [l1' H3]) (H4 & [l2 H5] & [l2' H6]).
  split; [set_solver|].
  split; [exists (l1 ++ l2) | exists (l1' ++ l2')]; rewrite app_assoc; congruence.
Qed.

Lemma closed_ext st st' uid : ext st st' -> closed st uid -> closed st' uid.
Proof.
  intros [Hsub _] Hc folder subfolders subfolder H1 H2 H3 H4.
  apply Hsub. by eapply Hc.
Qed.

Lemma post_refl st : inv st -> post st st Normal.
Proof. intros Hinv. split; [done|]. split; [apply ext_refl|]. by intros _ uid. Qed.

Lemma post_trans st1 st2 st3 o :
  post st1 st2 Normal -> post st2 st3 o -> post st1 st3 o.
Proof.
  intros (_ & He1 & Hc1) (Hinv & He2 & Hc2).
  split; [done|]. split; [by eapply ext_trans|].
  intros Ho uid H3 H1. destruct (decide (uid ∈ processed_uids st2)) as [H2|H2].
  - eapply closed_ext; [done|]. by apply Hc1.
  - by apply Hc2.
Qed.

(** The loop rule: [E x] is what a normal iteration on [x] establishes,
    and it outlives the later iterations. *)
Lemma for_each_post {A} (body : A -> state -> state * outcome)
    (E : A -> state -> Prop) l :
  (∀ x st st', E x st -> ext st st' -> E x st') ->
  (∀ x st st' o, x ∈ l -> inv st -> body x st = (st', o) ->
     post st st' o ∧ (o = Normal -> E x st')) ->
  ∀ st st' o, inv st -> for_each body l st = (st', o) ->
    post st st' o ∧ (o = Normal -> ∀ x, x ∈ l -> E x st').
Proof.
  intros Hstable. induction l as [|x l IH]; intros Hbody st st' o Hinv.
  - cbn. intros [= <- <-]. split; [by apply post_refl|].
    by intros _ x ?%elem_of_nil.
  - cbn [for_each]. destruct (body x st) as [st1 o1] eqn:Hx.
    destruct (Hbody x st st1 o1) as [Hp1 HE1]; [by left|done..|].
    destruct o1.
    + intros Hl. destruct (IH (fun y st2 st3 o2 Hy => Hbody y st2 st3 o2
                                 (list_elem_of_further _ _ _ Hy)) st1 st' o)
        as [Hp2 HE2]; [apply Hp1|done|].
      split; [by eapply post_trans|].
      intros Ho y [->|Hy]%elem_of_cons; [|by apply HE2].
      eapply Hstable; [by apply HE1|]. apply Hp2.
    + intros [= <- <-]. split; [done|]. by intros [=].
Qed.

Lemma inv_init : inv init.
Proof.
  split; cbn.
  - intros uid. split; [set_solver|by intros ?%elem_of_nil].
  - constructor.
  - by intros uid ?%elem_of_nil.
  - by intros f ?%elem_of_nil.
  - by intros uid ?%elem_of_nil.
Qed.

Lemma inv_visit uid st :
  inv st -> reach api folder_names uid -> uid ∉ processed_uids st ->
  inv (visit uid st).
Proof.
  intros [H1 H2 H3 H4 H5] Hreach Hnew. split; cbn.
  - intros u. rewrite elem_of_union, elem_of_singleton, elem_of_app,
      list_elem_of_singleton, H1.
    split; (intros [H|H]; [right|left]); congruence.
  - apply NoDup_app. split; [done|]. split; [|apply NoDup_singleton].
    intros r Hr ->%list_elem_of_singleton. by apply Hnew, H1.
  - intros u [Hu|Hu%list_elem_of_singleton]%elem_of_app; [|done].
    destruct (H3 u Hu) as [? ?]. split; [|done]. apply elem_of_app. by left.
  - intros f Hf. destruct (H4 f Hf) as (u & j & ? & ?).
    exists u, j. split; [|done]. apply elem_of_app. by left.
  - intros u [Hu|Hu%list_elem_of_singleton]%elem_of_app; [by apply H5|].
    by injection Hu as ->.
Qed.

Lemma inv_record uid folder st :
  inv st -> reach api folder_names uid -> uid ∉ processed_uids st ->
  get_folder api uid = Ok folder -> fj_title folder ≠ "GrafanaCloud" ->
  inv (record uid folder (visit uid st)).
Proof.
  intros Hinv Hreach Hnew Hfolder Htitle.
  pose proof (inv_visit uid st Hinv Hreach Hnew) as [H1 H2 H3 H4 H5].
  cbn in H1, H2, H3, H4, H5. split; cbn.
  - intros u. rewrite H1, (elem_of_app _ [GetSubfolders uid]),
      list_elem_of_singleton.
    split; [by left|]. by intros [H|H].
  - apply NoDup_app. split; [done|]. split; [|apply NoDup_singleton].
    intros r Hr ->%list_elem_of_singleton.
    destruct (H3 uid Hr) as [Hu _].
    apply elem_of_app in Hr as [Hr|Hr%list_elem_of_singleton]; [|done].
    destruct Hinv as [I1 _ I3 _ _]. apply Hnew, I1. by apply I3.
  - intros u [Hu|Hu%list_elem_of_singleton]%elem_of_app.
    + destruct (H3 u Hu) as [? ?]. split; [|done]. apply elem_of_app. by left.
    + injection Hu as ->. split; [|by exists folder].
      apply elem_of_app. left. apply elem_of_app. right. by left.
  - intros f [Hf|Hf%list_elem_of_singleton]%elem_of_app.
    + destruct (H4 f Hf) as (u & j & ? & ?).
      exists u, j. split; [|done]. apply elem_of_app. by left.
    + exists uid, folder. split; [|done].
      apply elem_of_app. left. apply elem_of_app. right. by left.
  - intros u [Hu|Hu%list_elem_of_singleton]%elem_of_app; [by apply H5|done].
Qed.

Lemma ext_visit uid st : ext st (visit uid st).
Proof.
  split; [cbn; apply union_subseteq_r|].
  split; [by exists [GetFolder uid] | exists []; cbn; by rewrite app_nil_r].
Qed.

Lemma ext_record uid folder st : ext st (record uid folder st).
Proof.
  split; [done|].
  split; [by exists [GetSubfolders uid] | by exists [folder_of folder]].
Qed.

(** The only uid processed between [st] and [visit uid st] is [uid]. *)
Lemma fresh_visit uid st u :
  u ∈ processed_uids (visit uid st) -> u ∉ processed_uids st -> u = uid.
Proof.
  cbn. intros [->%elem_of_singleton|H]%elem_of_union; done.
Qed.

(** What a call of [fetch_folder_and_children] establishes. *)
Lemma fetch_folder_and_children_post limit uid st st' o :
  reach api folder_names uid -> inv st ->
  fetch_folder_and_children api limit uid st = (st', o) ->
  post st st' o ∧ (o = Normal -> uid ∈ processed_uids st').
Proof.
  revert uid st st' o. induction limit as [|limit IH]; intros uid st st' o Hreach Hinv;
    cbn [fetch_folder_and_children];
    (destruct (decide (uid ∈ processed_uids st)) as [Hold|Hnew];
       [intros [= <- <-]; split; [by apply post_refl|done]|]);
    pose proof (inv_visit uid st Hinv Hreach Hnew) as Hinv1.
  { intros [= <- <-]. split; [|done].
    split; [done|]. split; [apply ext_visit|done]. }
  assert (Hin1 : uid ∈ processed_uids (visit uid st))
    by (cbn; apply elem_of_union_l; by apply elem_of_singleton).
  assert (Hstop : ∀ o',
    (∀ j subs, get_folder api uid = Ok j -> fj_title j ≠ "GrafanaCloud" ->
               get_subfolders api uid = Ok subs -> False) ->
    post st (visit uid st) o').
  { intros o' Hno. split; [done|]. split; [apply ext_visit|].
    intros _ u Hu Hu'. rewrite (fresh_visit _ _ _ Hu Hu').
    intros j subs c Hj Ht Hsubs _. by destruct (Hno j subs). }
  destruct (get_folder api uid) as [folder| | |] eqn:Hfolder;
    [|intros [= <- <-]; split; [by apply Hstop|done]..].
  destruct (decide (fj_title folder = "GrafanaCloud")) as [Hgc|Htitle].
  { intros [= <- <-]. split; [|done]. apply Hstop. intros j subs [= <-]. done. }
  pose proof (inv_record uid folder st Hinv Hreach Hnew Hfolder Htitle) as Hinv2.
  assert (Hext2 : ext st (record uid folder (visit uid st)))
    by (eapply ext_trans; [apply ext_visit|apply ext_record]).
  assert (Hstop2 : ∀ o',
    (∀ subs, get_subfolders api uid = Ok subs -> False) ->
    post st (record uid folder (visit uid st)) o').
  { intros o' Hno. split; [done|]. split; [done|].
    intros _ u Hu Hu'. rewrite (fresh_visit uid st u Hu Hu').
    intros j subs c _ _ Hsubs _. by destruct (Hno subs). }
  destruct (get_subfolders api uid) as [subfolders| | |] eqn:Hsubs;
    [|intros [= <- <-]; split; [by apply Hstop2|done]..].
  intros Hloop.
  destruct (for_each_post
              (fun subfolder => fetch_folder_and_children api limit (fj_uid subfolder))
              (fun subfolder st => fj_uid subfolder ∈ processed_uids st)
              subfolders) with (3 := Hinv2) (4 := Hloop) as [(Hinv' & Hext' & Hc') Hall].
  { intros c st1 st2 Hc [Hsub _]. by apply Hsub. }
  { intros c st1 st2 o1 Hc Hinv1' Hcall.
    apply (IH (fj_uid c) st1 st2 o1); [|done..].
    by eapply reach_sub. }
  split; [|intros _; apply Hext'; apply Hin1].
  split; [done|]. split; [by eapply ext_trans|].
  intros Ho u Hu Hu'.
  destruct (decide (u = uid)) as [->|Hne].
  - intros j subs c _ _ Hs Hc. rewrite Hsubs in Hs. injection Hs as <-.
    by apply Hall.
  - apply Hc'; [done..|]. cbn. intros [Heq%elem_of_singleton|?]%elem_of_union; done.
Qed.

(** The traversal is the loop of calls over the roots. *)
Lemma traverse_roots limit :
  traverse api limit folder_names =
  match get_folders api with
  | OtherError => (init, Raised)
  | _ => for_each (fetch_folder_and_children api limit) (roots api folder_names) init
  end.
Proof.
  unfold traverse, roots.
  destruct (get_folders api) as [[|folder response]| | |]; try reflexivity.
  destruct folder_names as [[|name names]|].
  - apply (for_each_fmap fj_uid).
  - rewrite <- for_each_omap. apply for_each_ext. intros x st.
    by destruct (folder_map (folder :: response) !! x).
  - apply (for_each_fmap fj_uid).
Qed.

(** What the whole traversal establishes. *)
Lemma traverse_post limit st o :
  traverse api limit folder_names = (st, o) ->
  inv st ∧
  (o = Normal ->
     (∀ uid, uid ∈ roots api folder_names -> uid ∈ processed_uids st) ∧
     (∀ uid, uid ∈ processed_uids st -> closed st uid)).
Proof.
  rewrite traverse_roots. intros Hloop.
  assert (Hloop' : get_folders api = OtherError ∧ st = init ∧ o = Raised ∨
    for_each (fetch_folder_and_children api limit) (roots api folder_names) init
      = (st, o)).
  { destruct (get_folders api); auto. left. by injection Hloop as <- <-. }
  clear Hloop. destruct Hloop' as [(_ & -> & ->)|Hloop].
  { split; [apply inv_init|done]. }
  destruct (for_each_post (fetch_folder_and_children api limit)
              (fun uid st => uid ∈ processed_uids st) (roots api folder_names))
    with (3 := inv_init) (4 := Hloop) as [(Hinv & _ & Hc) Hroots].
  { intros uid st1 st2 Huid [Hsub _]. by apply Hsub. }
  { intros uid st1 st2 o1 Huid Hinv1 Hcall.
    apply (fetch_folder_and_children_post limit uid st1 st2 o1); [|done..].
    by apply reach_root. }
  split; [done|]. intros Ho. split; [by apply Hroots|].
  intros uid Huid. apply Hc; [done..|]. cbn. apply not_elem_of_empty.
Qed.

(** After a traversal that ends normally, the folders requested are the
    uids that can be arrived at. *)
Lemma traverse_complete limit st uid :
  traverse api limit folder_names = (st, Normal) ->
  reach api folder_names uid -> uid ∈ processed_uids st.
Proof.
  intros [_ Hpost]%traverse_post. destruct (Hpost eq_refl) as [Hroots Hclosed].
  induction 1 as [uid Huid|uid folder subfolders subfolder _ IH Hf Ht Hs Hc].
  - by apply Hroots.
  - by eapply (Hclosed uid IH).
Qed.

(** *** The recursion limit *)

Lemma folder_map_lookup response (m : gmap string folder_json) title folder :
  foldl (fun m folder => <[fj_title folder := folder]> m) m response !! title
    = Some folder ->
  m !! title = Some folder ∨ folder ∈ response.
Proof.
  revert m. induction response as [|x response IH]; intros m; cbn [foldl]; [auto|].
  intros [[[_ <-]|[_ H]]%lookup_insert_Some|H]%IH.
  - right. by left.
  - by left.
  - right. by right.
Qed.

Lemma roots_bounded U uid :
  bounded api U -> uid ∈ roots api folder_names -> uid ∈ U.
Proof.
  intros [Hroots _]. unfold roots.
  destruct (get_folders api) as [response| | |] eqn:Hget;
    [|by intros ?%elem_of_nil..].
  specialize (Hroots response).
  assert (Hall : uid ∈ fj_uid <$> response -> uid ∈ U).
  { intros (folder & -> & Hf)%list_elem_of_fmap. by apply Hroots. }
  destruct response as [|folder response]; [by intros ?%elem_of_nil|].
  destruct folder_names as [[|name names]|]; [done| |done].
  intros (x & _ & Hx)%list_elem_of_omap.
  destruct (folder_map (folder :: response) !! x) as [f|] eqn:Hf; [|done].
  injection Hx as <-. apply Hroots; [done|].
  by destruct (folder_map_lookup _ _ _ _ Hf) as [?%lookup_empty_Some|?].
Qed.

Lemma size_shrink (U P P' : gset string) uid :
  uid ∈ U -> uid ∉ P -> {[uid]} ∪ P ⊆ P' -> size (U ∖ P') < size (U ∖ P).
Proof.
  intros HU HP Hsub. apply subset_size. split.
  - intros x [Hx Hx']%elem_of_difference. apply elem_of_difference.
    split; [done|]. intros HxP. by apply Hx', Hsub, elem_of_union_r.
  - intros H. assert (Hin : uid ∈ U ∖ P') by (by apply H, elem_of_difference).
    apply elem_of_difference in Hin as [_ Hin].
    by apply Hin, Hsub, elem_of_union_l, elem_of_singleton.
Qed.

Lemma size_fresh (U P : gset string) uid :
  uid ∈ U -> uid ∉ P -> 0 < size (U ∖ P).
Proof.
  intros HU HP. destruct (size (U ∖ P)) eqn:Hsize; [|lia].
  apply size_empty_iff in Hsize. exfalso.
  apply (not_elem_of_empty (C:=gset string) uid). rewrite <- Hsize.
  by apply elem_of_difference.
Qed.

(** A call whose limit leaves room for as many nested calls as there are
    uids not yet processed does not depend on the limit. *)
Lemma fetch_folder_and_children_limit U limit limit' uid st :
  bounded api U -> uid ∈ U ->
  size (U ∖ processed_uids st) ≤ limit -> size (U ∖ processed_uids st) ≤ limit' ->
  fetch_folder_and_children api limit uid st =
    fetch_folder_and_children api limit' uid st ∧
  processed_uids st ⊆ processed_uids (fetch_folder_and_children api limit uid st).1.
Proof.
  intros Hb. revert limit' uid st.
  induction limit as [|limit IH]; intros limit' uid st HU Hsize Hsize';
    destruct limit' as [|limit']; cbn [fetch_folder_and_children];
    (destruct (decide (uid ∈ processed_uids st)) as [Hold|Hnew]; [done|]);
    pose proof (size_fresh U _ uid HU Hnew); [lia..|].
  assert (Hsub1 : processed_uids st ⊆ processed_uids (visit uid st))
    by (cbn; apply union_subseteq_r).
  destruct (get_folder api uid) as [folder| | |]; [|done..].
  destruct (decide (fj_title folder = "GrafanaCloud")); [done|].
  destruct (get_subfolders api uid) as [subfolders| | |] eqn:Hsubs; [|done..].
  destruct (for_each_agree
              (fun subfolder => fetch_folder_and_children api limit (fj_uid subfolder))
              (fun subfolder => fetch_folder_and_children api limit' (fj_uid subfolder))
              (fun st' => {[uid]} ∪ processed_uids st ⊆ processed_uids st')
              subfolders (record uid folder (visit uid st)))
    as [Heq HJ]; [|done|].
  - intros c st1 Hc HJ.
    pose proof (size_shrink U _ _ uid HU Hnew HJ) as Hlt.
    destruct (IH limit' (fj_uid c) st1) as [Heq Hsub]; [|lia..|].
    + destruct Hb as [_ Hb]. by eapply Hb.
    + split; [done|]. by etrans.
  - split; [done|]. etrans; [|done]. apply union_subseteq_r.
Qed.

Lemma traverse_limit U limit limit' :
  bounded api U -> size U ≤ limit -> size U ≤ limit' ->
  traverse api limit folder_names = traverse api limit' folder_names.
Proof.
  intros Hb Hsize Hsize'. rewrite !traverse_roots.
  assert (Hloop :
    for_each (fetch_folder_and_children api limit) (roots api folder_names) init =
    for_each (fetch_folder_and_children api limit') (roots api folder_names) init).
  { apply (for_each_agree _ _ (fun _ => True)); [|done].
    intros uid st Huid _. split; [|done].
    assert (size (U ∖ processed_uids st) ≤ size U)
      by (apply subseteq_size; by intros x [? _]%elem_of_difference).
    apply (fetch_folder_and_children_limit U); [done|by eapply roots_bounded|lia..]. }
  by destruct (get_folders api).
Qed.

(** *** Outcome *)

(** A call whose limit leaves room for as many nested calls as there are
    uids not yet processed ends normally when the backend raises nothing
    unhandled. *)
Lemma fetch_folder_and_children_normal U limit uid st :
  handled api -> bounded api U -> uid ∈ U ->
  size (U ∖ processed_uids st) ≤ limit ->
  (fetch_folder_and_children api limit uid st).2 = Normal ∧
  processed_uids st ⊆ processed_uids (fetch_folder_and_children api limit uid st).1.
Proof.
  intros [_ Hh] Hb. revert uid st.
  induction limit as [|limit IH]; intros uid st HU Hsize;
    cbn [fetch_folder_and_children]; destruct (Hh uid) as [H1 H2];
    (destruct (decide (uid ∈ processed_uids st)) as [Hold|Hnew]; [done|]);
    pose proof (size_fresh U _ uid HU Hnew); [lia|].
  assert (Hsub1 : processed_uids st ⊆ processed_uids (visit uid st))
    by (cbn; apply union_subseteq_r).
  destruct (get_folder api uid) as [folder| | |]; [|done..].
  destruct (decide (fj_title folder = "GrafanaCloud")); [done|].
  destruct (get_subfolders api uid) as [subfolders| | |] eqn:Hsubs; [|done..].
  destruct (for_each_all_normal
              (fun subfolder => fetch_folder_and_children api limit (fj_uid subfolder))
              (fun st' => {[uid]} ∪ processed_uids st ⊆ processed_uids st')
              subfolders (record uid folder (visit uid st)))
    as [Ho HJ]; [|done|].
  - intros c st1 Hc HJ.
    pose proof (size_shrink U _ _ uid HU Hnew HJ) as Hlt.
    destruct (IH (fj_uid c) st1) as [Ho Hsub]; [|lia|].
    + destruct Hb as [_ Hb]. by eapply Hb.
    + split; [done|]. by etrans.
  - split; [done|]. etrans; [|done]. apply union_subseteq_r.
Qed.

Lemma traverse_normal U limit :
  handled api -> bounded api U -> size U ≤ limit ->
  (traverse api limit folder_names).2 = Normal.
Proof.
  intros Hh Hb Hsize. rewrite traverse_roots. pose proof Hh as [H0 _].
  assert (Hloop :
    (for_each (fetch_folder_and_children api limit) (roots api folder_names) init).2
      = Normal).
  { apply (for_each_all_normal _ (fun _ => True)); [|done].
    intros uid st Huid _. split; [|done].
    assert (size (U ∖ processed_uids st) ≤ size U)
      by (apply subseteq_size; by intros x [? _]%elem_of_difference).
    apply (fetch_folder_and_children_normal U); [done..|by eapply roots_bounded|lia]. }
  by destruct (get_folders api).
Qed.

End Traversal.

Section FolderClaims.
Import Folders.

(** C8: no folder of the output is titled GrafanaCloud; every folder of
    the output was arrived at from a root through folders that are not
    titled GrafanaCloud, and the subfolders of a folder titled
    GrafanaCloud are never requested. *)
Theorem reserved_folder_pruned api limit folder_names st o :
  traverse api limit folder_names = (st, o) ->
  get_all_folders api limit folder_names = all_folders st ∧
  (∀ f, f ∈ all_folders st ->
     f_title f ≠ "GrafanaCloud" ∧
     ∃ uid folder, reach api folder_names uid ∧ get_folder api uid = Ok folder ∧
                   fj_title folder ≠ "GrafanaCloud" ∧ f = folder_of folder) ∧
  (∀ uid folder, get_folder api uid = Ok folder ->
     fj_title folder = "GrafanaCloud" -> GetSubfolders uid ∉ sent st) ∧
  (∀ uid, GetFolder uid ∈ sent st -> reach api folder_names uid).
Proof.
  intros Hrun. pose proof (traverse_post _ _ _ _ _ Hrun) as [[H1 H2 H3 H4 H5] _].
  split; [unfold get_all_folders; by rewrite Hrun|].
  split; [|split; [|done]].
  - intros f Hf. destruct (H4 f Hf) as (uid & folder & Hsent & Hget & Htitle & ->).
    split; [done|]. exists uid, folder. split; [by apply H5|done].
  - intros uid folder Hget Htitle Hsent.
    destruct (H3 uid Hsent) as (_ & folder' & Hget' & Htitle'). congruence.
Qed.

Lemma reserved_folder_pruned_witness :
  get_all_folders Scenario.backend1 5 None =
    [Scenario.team_a; Scenario.team_a_sub] ∧
  GetSubfolders "gc" ∉
    [GetFolder "f1"; GetSubfolders "f1"; GetFolder "f2"; GetSubfolders "f2";
     GetFolder "gc"].
Proof.
  destruct (reserved_folder_pruned Scenario.backend1 5 None _ _ eq_refl)
    as (Hall & _ & Hsub & _).
  split; [exact Hall|].
  exact (Hsub "gc" (FolderJson "gc" "GrafanaCloud" None) eq_refl eq_refl).
Defined.









End FolderClaims.

(** * Further properties *)

(** ** Resource Generator and Selector together *)

Section Composition.
Import Terraform.

Lemma dashboard_blocks_elem ds dbs b :
  dashboard_blocks ds = Some dbs -> b ∈ dbs ->
  ∃ d, d ∈ ds ∧ dashboard_block_of d = Some b.
Proof.
  revert dbs. induction ds as [|d ds IH]; intros dbs.
  - intros [= <-] ?%elem_of_nil. done.
  - cbn [dashboard_blocks].
    destruct (dashboard_block_of d) as [b0|] eqn:Hb0; [|done].
    destruct (dashboard_blocks ds) as [dbs'|]; [|done].
    intros [= <-] [->|Hb]%elem_of_cons.
    + exists d. split; [by left|done].
    + destruct (IH dbs' eq_refl Hb) as (d' & Hd' & Hb'). exists d'.
      split; [by right|done].
Qed.

Lemma dashboard_blocks_files ds dbs :
  dashboard_blocks ds = Some dbs ->
  db_file <$> dbs = (documents_of ds).*1.
Proof.
  revert dbs. induction ds as [|d ds IH]; intros dbs; [by intros [= <-]|].
  cbn [dashboard_blocks]. unfold dashboard_block_of.
  destruct (d_folder_uid d) as [fu|]; [|done].
  destruct (dashboard_blocks ds) as [dbs'|]; [|done].
  intros [= <-]. unfold documents_of. rewrite !fmap_cons. cbn [db_file fst].
  f_equal. by apply IH.
Qed.

Lemma elem_of_target_dashboards d ds folders :
  d ∈ target_dashboards ds folders ↔
  d ∈ ds ∧ ∃ f, f ∈ folders ∧ d_folder_uid d = Some (f_uid f).
Proof.
  unfold target_dashboards.
  by rewrite !list_elem_of_In, filter_In, in_target_spec.
Qed.

(** A loop over dashboards that all have a folder raises only at a file
    that cannot be written. *)
Lemma dashboard_loop_unwritable fs skip ds dbs tf_config written :
  dashboard_blocks (not_skipped skip ds) = Some dbs ->
  (dashboard_loop fs skip ds tf_config written).2 = Raises ->
  ∃ d, d ∈ not_skipped skip ds ∧ writable fs (dashboard_path (d_uid d)) = false.
Proof.
  revert dbs tf_config written.
  induction ds as [|d ds IH]; intros dbs tf_config written; [done|].
  rewrite not_skipped_cons. cbn [dashboard_loop].
  destruct (decide _) as [Hin|Hin]; [apply IH|].
  cbn [dashboard_blocks]. unfold dashboard_block_of.
  destruct (d_folder_uid d) as [fu|]; [|done].
  destruct (dashboard_blocks _) as [dbs'|] eqn:E; [|done]. intros _.
  destruct (writable fs (dashboard_path (d_uid d))) eqn:Hw.
  - intros (d' & Hd' & Hw')%(IH dbs' _ _ eq_refl). exists d'. split; [by right|done].
  - intros _. exists d. split; [by left|done].
Qed.

(** X1: on the dashboards the selector keeps, line 180 never raises,
    whatever the skip set.  When the directory can be made and the file of
    every dashboard let through can be written, the generator returns; it
    writes one file per dashboard it lets through and every dashboard block
    refers to a folder block of the same text.  It raises only for the
    directory or for a file that cannot be written. *)
Theorem selected_dashboards_render fs skip folders ds :
  (makedirs fs = true ->
   all_writable fs (not_skipped skip (target_dashboards ds folders)) ->
   ∃ dbs,
     generate_terraform fs skip folders (target_dashboards ds folders) =
       (documents_of (not_skipped skip (target_dashboards ds folders)),
        Returns (render (folder_blocks folders) dbs)) ∧
     dashboard_blocks (not_skipped skip (target_dashboards ds folders)) = Some dbs ∧
     ∀ b, b ∈ dbs -> ∃ fb, fb ∈ folder_blocks folders ∧ fb_name fb = db_folder b) ∧
  ((generate_terraform fs skip folders (target_dashboards ds folders)).2 = Raises ->
   makedirs fs = false ∨
   ∃ d, d ∈ not_skipped skip (target_dashboards ds folders) ∧
        writable fs (dashboard_path (d_uid d)) = false).
Proof.
  destruct (dashboard_blocks_Some (not_skipped skip (target_dashboards ds folders)))
    as [dbs Hdbs].
  { intros d [(_ & f & _ & Hf)%elem_of_target_dashboards _]%elem_of_not_skipped.
    by eexists. }
  split.
  - intros Hmk Hw. exists dbs.
    split; [by apply generate_terraform_returns|]. split; [done|].
    intros b Hb. destruct (dashboard_blocks_elem _ _ _ Hdbs Hb) as (d & Hd & Hbd).
    apply elem_of_not_skipped in Hd as [(_ & f & Hf & Hfu)%elem_of_target_dashboards _].
    unfold dashboard_block_of in Hbd. rewrite Hfu in Hbd. injection Hbd as <-.
    exists (folder_block_of f). split; [|reflexivity].
    apply elem_of_folder_blocks. by exists f.
  - unfold generate_terraform. destruct (makedirs fs); [|by left].
    intros Hr. right. by eapply dashboard_loop_unwritable.
Qed.

Lemma selected_dashboards_render_witness :
  ∃ dbs,
    generate_terraform Scenario.disk ∅ [Scenario.team_a]
        (target_dashboards [Scenario.x; Scenario.y] [Scenario.team_a]) =
      (documents_of (not_skipped ∅
         (target_dashboards [Scenario.x; Scenario.y] [Scenario.team_a])),
       Returns (render (folder_blocks [Scenario.team_a]) dbs)) ∧
    dashboard_blocks (not_skipped ∅
      (target_dashboards [Scenario.x; Scenario.y] [Scenario.team_a])) = Some dbs ∧
    ∀ b, b ∈ dbs ->
      ∃ fb, fb ∈ folder_blocks [Scenario.team_a] ∧ fb_name fb = db_folder b.
Proof.
  apply (proj1 (selected_dashboards_render Scenario.disk ∅ [Scenario.team_a]
                  [Scenario.x; Scenario.y])); [reflexivity|].
  intros d _. reflexivity.
Defined.

(** X2: when the generator returns, the files it wrote are those of the
    dashboards it let through, in their order, each holding the document of
    its dashboard, and the file each dashboard block loads is the file
    written for it. *)
Theorem written_files_match_blocks fs skip folders ds written text :
  generate_terraform fs skip folders ds = (written, Returns text) ->
  written = documents_of (not_skipped skip ds) ∧
  ∃ dbs, dashboard_blocks (not_skipped skip ds) = Some dbs ∧
         text = render (folder_blocks folders) dbs ∧
         db_file <$> dbs = written.*1 ∧
         List.length dbs = List.length written.
Proof.
  intros Hgen.
  destruct (generate_terraform_inv fs skip folders ds text)
    as (Hmk & Hw & dbs & Hdbs & ->).
  { by rewrite Hgen. }
  rewrite (generate_terraform_returns _ _ _ _ _ Hmk Hw Hdbs) in Hgen.
  injection Hgen as <-. split; [done|]. exists dbs.
  split; [done|]. split; [done|].
  pose proof (dashboard_blocks_files _ _ Hdbs) as Hfiles.
  split; [done|].
  apply (f_equal List.length) in Hfiles. by rewrite !length_fmap in Hfiles.
Qed.

Lemma written_files_match_blocks_witness :
  [(dashboard_path "d1", d_json Scenario.x)] =
    documents_of (not_skipped {["d_d2"]} [Scenario.x; Scenario.y]).
Proof.
  exact (proj1 (written_files_match_blocks Scenario.disk {["d_d2"]} [Scenario.team_a]
                  [Scenario.x; Scenario.y] _ _ eq_refl)).
Defined.

Lemma dashboard_loop_app fs skip ds1 ds2 dbs tf_config written :
  dashboard_blocks (not_skipped skip ds1) = Some dbs ->
  all_writable fs (not_skipped skip ds1) ->
  dashboard_loop fs skip (ds1 ++ ds2) tf_config written =
  dashboard_loop fs skip ds2
    (tf_config +:+ joined (render_dashboard_block <$> dbs))
    (written ++ documents_of (not_skipped skip ds1)).
Proof.
  revert dbs tf_config written.
  induction ds1 as [|d ds1 IH]; intros dbs tf_config written.
  - cbn. intros [= <-] _. cbn. by rewrite app_nil_r, append_empty_r.
  - rewrite not_skipped_cons. cbn [app dashboard_loop].
    destruct (decide _) as [Hin|Hin]; [apply IH|].
    cbn [dashboard_blocks]. unfold dashboard_block_of.
    destruct (d_folder_uid d) as [fu|]; [|done].
    destruct (dashboard_blocks _) as [dbs'|] eqn:E; [|done].
    intros [= <-] Hw. rewrite (Hw d) by by left.
    rewrite (IH dbs' _ _ eq_refl) by (intros d' Hd'; apply Hw; by right).
    unfold documents_of. rewrite !fmap_cons, joined_cons.
    by rewrite <- !app_assoc, append_assoc.
Qed.

(** A loop that comes to a dashboard without folder that it does not skip
    raises, there or before, and writes no file for that dashboard or a
    later one. *)
Lemma dashboard_loop_stops fs skip ds1 d ds2 tf_config written :
  dashboard_resource_id (d_uid d) ∉ skip -> d_folder_uid d = None ->
  (dashboard_loop fs skip (ds1 ++ d :: ds2) tf_config written).2 = Raises ∧
  ∃ l, (dashboard_loop fs skip (ds1 ++ d :: ds2) tf_config written).1 = written ++ l ∧
       l `prefix_of` documents_of (not_skipped skip ds1).
Proof.
  intros Hskip Hnone. revert tf_config written.
  induction ds1 as [|d1 ds1 IH]; intros tf_config written.
  - cbn [app dashboard_loop]. rewrite decide_False by done. rewrite Hnone.
    split; [done|]. exists []. by rewrite app_nil_r.
  - rewrite not_skipped_cons. cbn [app dashboard_loop].
    destruct (decide _) as [Hin|Hin]; [apply IH|].
    destruct (d_folder_uid d1) as [fu|];
      [|split; [done|]; exists []; split; [by rewrite app_nil_r|apply prefix_nil]].
    destruct (writable fs (dashboard_path (d_uid d1)));
      [|split; [done|]; exists []; split; [by rewrite app_nil_r|apply prefix_nil]].
    destruct (IH (tf_config +:+ dashboard_resource (dashboard_resource_id (d_uid d1))
                                  (folder_resource_id fu) (dashboard_path (d_uid d1)))
                 (written ++ [(dashboard_path (d_uid d1), d_json d1)]))
      as (Hr & l & Hl & Hpre).
    split; [done|]. exists ((dashboard_path (d_uid d1), d_json d1) :: l).
    split; [by rewrite Hl, <- app_assoc|].
    unfold documents_of. rewrite fmap_cons. by apply prefix_cons.
Qed.

(** X3: the generator stops at the first dashboard it lets through that has
    no folder, if not before: no text is returned, and no file is written
    for that dashboard or the dashboards after it.  When the directory can
    be made and the files of the dashboards before it can be written, and
    these dashboards have folders, their files all stay written. *)
Theorem files_written_before_raise fs skip folders ds1 d ds2 :
  dashboard_resource_id (d_uid d) ∉ skip ->
  d_folder_uid d = None ->
  (generate_terraform fs skip folders (ds1 ++ d :: ds2)).2 = Raises ∧
  (generate_terraform fs skip folders (ds1 ++ d :: ds2)).1
    `prefix_of` documents_of (not_skipped skip ds1) ∧
  ((∀ d', d' ∈ not_skipped skip ds1 -> is_Some (d_folder_uid d')) ->
   makedirs fs = true -> all_writable fs (not_skipped skip ds1) ->
   generate_terraform fs skip folders (ds1 ++ d :: ds2) =
     (documents_of (not_skipped skip ds1), Raises)).
Proof.
  intros Hskip Hnone. unfold generate_terraform.
  destruct (makedirs fs).
  - destruct (dashboard_loop_stops fs skip ds1 d ds2 (folder_loop folders EmptyString) []
                Hskip Hnone) as (Hr & l & Hl & Hpre).
    split; [done|]. split; [by rewrite Hl|].
    intros [dbs Hdbs]%dashboard_blocks_Some _ Hw.
    rewrite (dashboard_loop_app _ _ _ _ _ _ _ Hdbs Hw).
    cbn [dashboard_loop]. rewrite decide_False by done. by rewrite Hnone.
  - split; [done|]. split; [apply prefix_nil|done].
Qed.

Lemma files_written_before_raise_witness :
  generate_terraform Scenario.disk ∅ [Scenario.team_a]
      ([Scenario.x] ++ Scenario.general :: [Scenario.y]) =
    (documents_of (not_skipped ∅ [Scenario.x]), Raises).
Proof.
  apply files_written_before_raise.
  - apply not_elem_of_empty.
  - reflexivity.
  - intros d' [Hd' _]%elem_of_not_skipped.
    apply list_elem_of_singleton in Hd' as ->. by eexists.
  - reflexivity.
  - intros d' _. reflexivity.
Defined.

End Composition.

(** ** The order and the names of the blocks *)

Section BlockNames.
Import Terraform.

#[local] Instance uid_le_trans : Transitive uid_le.
Proof. intros f g h. unfold uid_le. apply transitivity. Qed.

Lemma same_uid_same_folder (folders : list folder) f g :
  NoDup (f_uid <$> folders) -> f ∈ folders -> g ∈ folders ->
  f_uid f = f_uid g -> f = g.
Proof.
  induction folders as [|h folders IH]; [by intros _ ?%elem_of_nil|].
  rewrite fmap_cons. intros [Hh Hnd]%NoDup_cons.
  intros [->|Hf]%elem_of_cons [->|Hg]%elem_of_cons Heq; [done| | |by apply IH].
  - exfalso. apply Hh. rewrite Heq. by apply list_elem_of_fmap_2.
  - exfalso. apply Hh. rewrite <- Heq. by apply list_elem_of_fmap_2.
Qed.

(** X4: the folder part of the text does not depend on the order in which
    the folders come in, as long as no two of them share a uid. *)
Theorem folder_order_irrelevant fs skip folders1 folders2 ds :
  folders1 ≡ₚ folders2 -> NoDup (f_uid <$> folders1) ->
  folder_blocks folders1 = folder_blocks folders2 ∧
  generate_terraform fs skip folders1 ds = generate_terraform fs skip folders2 ds.
Proof.
  intros Hperm Hnd.
  assert (Hsorted : sorted_by_uid folders1 = sorted_by_uid folders2).
  { apply (Sorted_unique_strong uid_le); [|apply sorted_by_uid_sorted..|].
    - intros f g Hf Hg Hfg Hgf.
      apply (same_uid_same_folder folders1); [done|..].
      + by rewrite <- (sorted_by_uid_perm folders1).
      + by rewrite Hperm, <- (sorted_by_uid_perm folders2).
      + by apply (anti_symm String.le).
    - by rewrite !sorted_by_uid_perm. }
  split; [unfold folder_blocks; by rewrite Hsorted|].
  unfold generate_terraform, folder_loop. by rewrite Hsorted.
Qed.

Lemma folder_order_irrelevant_witness :
  folder_blocks [Scenario.team_a_sub; Scenario.team_a] =
    folder_blocks [Scenario.team_a; Scenario.team_a_sub] ∧
  generate_terraform Scenario.disk ∅ [Scenario.team_a_sub; Scenario.team_a] [Scenario.x] =
    generate_terraform Scenario.disk ∅ [Scenario.team_a; Scenario.team_a_sub] [Scenario.x].
Proof.
  apply folder_order_irrelevant.
  - apply Permutation_swap.
  - by apply (bool_decide_unpack _).
Defined.

(** X5: when no two folders share a uid and no uid holds an underscore, no
    two folder blocks share a name. *)
Theorem folder_block_names_distinct folders :
  NoDup (f_uid <$> folders) ->
  (∀ f, f ∈ folders -> occurs underscore (f_uid f) = false) ->
  NoDup (fb_name <$> folder_blocks folders).
Proof.
  intros Hnd Hus. unfold folder_blocks. rewrite <- list_fmap_compose.
  assert (Hperm : sorted_by_uid folders ≡ₚ folders) by apply sorted_by_uid_perm.
  apply NoDup_fmap_2_strong.
  - intros f g Hf Hg Heq. rewrite Hperm in Hf, Hg.
    apply (same_uid_same_folder folders); [done..|].
    apply replace_hyphen_inj; [by apply Hus..|done].
  - rewrite Hperm. by eapply NoDup_fmap_1.
Qed.

Lemma folder_block_names_distinct_witness :
  NoDup (fb_name <$> folder_blocks [Scenario.team_a_sub; Scenario.team_a]).
Proof.
  apply folder_block_names_distinct.
  - by apply (bool_decide_unpack _).
  - intros f Hf.
    repeat (apply elem_of_cons in Hf as [->|Hf]; [reflexivity|]).
    by apply elem_of_nil in Hf.
Defined.



(** X7: the name of a folder's block holds no hyphen and is as long as the
    uid; a uid without hyphen is its own name, so that deriving the name
    twice changes nothing. *)
Theorem folder_resource_id_sanitised uid :
  occurs hyphen (folder_resource_id uid) = false ∧
  String.length (folder_resource_id uid) = String.length uid ∧
  folder_resource_id (folder_resource_id uid) = folder_resource_id uid ∧
  (occurs hyphen uid = false -> folder_resource_id uid = uid).
Proof.
  unfold folder_resource_id.
  split; [apply replace_hyphen_no_hyphen|].
  split; [apply replace_hyphen_length|].
  split; [|apply replace_hyphen_id].
  apply replace_hyphen_id, replace_hyphen_no_hyphen.
Qed.

End BlockNames.

(** ** More on the Selector *)

Section SelectorMore.

(** X8: selecting twice selects nothing more, the selection of a list in
    two parts is the two selections one after the other, and without folders
    nothing is selected. *)
Theorem target_dashboards_algebra ds1 ds2 folders :
  target_dashboards (target_dashboards ds1 folders) folders =
    target_dashboards ds1 folders ∧
  target_dashboards (ds1 ++ ds2) folders =
    target_dashboards ds1 folders ++ target_dashboards ds2 folders ∧
  target_dashboards ds1 [] = [].
Proof.
  unfold target_dashboards. split; [|split].
  - induction ds1 as [|d ds1 IH]; [done|]. cbn [List.filter].
    destruct (in_target _ d) eqn:Hd; [|done].
    cbn [List.filter]. by rewrite Hd, IH.
  - apply List.filter_app.
  - induction ds1 as [|d ds1 IH]; [done|]. cbn [List.filter].
    destruct (in_target _ d) eqn:Hd; [|done].
    apply in_target_spec in Hd as (f & ?%elem_of_nil & _). done.
Qed.

(** X9: the selection depends on the folders through their uids only, and
    more folders select no fewer dashboards. *)
Theorem target_dashboards_by_uids ds folders folders' :
  ((∀ uid, uid ∈ f_uid <$> folders ↔ uid ∈ f_uid <$> folders') ->
   target_dashboards ds folders = target_dashboards ds folders') ∧
  ((∀ uid, uid ∈ f_uid <$> folders -> uid ∈ f_uid <$> folders') ->
   sublist (target_dashboards ds folders) (target_dashboards ds folders')).
Proof.
  assert (Hspec : ∀ fs d, in_target (target_folder_uids fs) d = true ↔
            ∃ u, d_folder_uid d = Some u ∧ u ∈ f_uid <$> fs).
  { intros fs d. rewrite in_target_spec. split.
    - intros (f & Hf & Hu). exists (f_uid f). split; [done|].
      by apply list_elem_of_fmap_2.
    - intros (u & Hu & (f & -> & Hf)%list_elem_of_fmap). by exists f. }
  unfold target_dashboards. split; intros Huids.
  - induction ds as [|d ds IH]; [done|]. cbn [List.filter]. rewrite IH.
    assert (Heq : in_target (target_folder_uids folders) d =
                  in_target (target_folder_uids folders') d); [|by rewrite Heq].
    apply eq_true_iff_eq. rewrite !Hspec.
    split; intros (u & Hu & Hin); exists u; (split; [done|]); by apply Huids.
  - induction ds as [|d ds IH]; [constructor|]. cbn [List.filter].
    destruct (in_target (target_folder_uids folders) d) eqn:Hd.
    + assert (Hd' : in_target (target_folder_uids folders') d = true).
      { apply Hspec. apply Hspec in Hd as (u & Hu & Hin).
        exists u. split; [done|]. by apply Huids. }
      rewrite Hd'. by constructor.
    + destruct (in_target (target_folder_uids folders') d); [by constructor|done].
Qed.

Lemma target_dashboards_by_uids_witness :
  target_dashboards [Scenario.x; Scenario.y] [Scenario.team_a; Scenario.team_a_sub] =
  target_dashboards [Scenario.x; Scenario.y] [Scenario.team_a_sub; Scenario.team_a].
Proof.
  apply (target_dashboards_by_uids [Scenario.x; Scenario.y]
           [Scenario.team_a; Scenario.team_a_sub] [Scenario.team_a_sub; Scenario.team_a]).
  intros uid. cbn. rewrite !elem_of_cons. tauto.
Defined.

End SelectorMore.

(** ** More on the Dashboard Fetcher *)

Section DashboardMore.
Import Dashboards.

(** X10: when the search and the request for every document succeed, the
    fetcher returns one dashboard per hit, in the order of the hits, each
    with the uid, the title and the folder of its hit. *)
Theorem all_documents_fetched api hits :
  search api = Ok hits ->
  (∀ h, h ∈ hits -> ∃ doc, get_dashboard api (h_uid h) = Ok doc) ->
  ∃ ds, get_all_dashboards api = Returns ds ∧
        d_uid <$> ds = h_uid <$> hits ∧
        d_title <$> ds = h_title <$> hits ∧
        d_folder_uid <$> ds = h_folderUid <$> hits.
Proof.
  intros Hsearch Hok. exists (hydrated api hits). split.
  - unfold get_all_dashboards. rewrite Hsearch.
    rewrite <- (app_nil_r hits) at 1. by rewrite fetch_documents_app.
  - clear Hsearch. induction hits as [|h hits IH]; [done|].
    destruct (Hok h) as [doc Hdoc]; [by left|].
    cbn [hydrated omap list_omap]. rewrite Hdoc. rewrite !fmap_cons.
    destruct IH as (IH1 & IH2 & IH3).
    { intros h' Hh'. apply Hok. by right. }
    unfold hydrated in IH1, IH2, IH3. cbn [dashboard_of d_uid d_title d_folder_uid].
    by rewrite IH1, IH2, IH3.
Qed.

Lemma all_documents_fetched_witness :
  ∃ ds, get_all_dashboards Cases.backend3 = Returns ds ∧
        d_uid <$> ds = ["d1"; "d2"] ∧
        d_title <$> ds = ["X"; "Y"] ∧
        d_folder_uid <$> ds = [Some "f1"; Some "other"].
Proof.
  apply (all_documents_fetched Cases.backend3
           [Hit "d1" "X" (Some "f1"); Hit "d2" "Y" (Some "other")]);
    [reflexivity|].
  intros h Hh.
  repeat (apply elem_of_cons in Hh as [->|Hh]; [by eexists|]).
  by apply elem_of_nil in Hh.
Defined.

(** X11: an exception other than an HTTP error or a timeout, on the search
    or on the document of a hit, leaves the fetcher: nothing is returned,
    not even the dashboards fetched before. *)
Theorem unhandled_error_propagates api :
  (search api = OtherError -> get_all_dashboards api = Raises) ∧
  (∀ hits1 h hits2,
     search api = Ok (hits1 ++ h :: hits2) ->
     (∀ h', h' ∈ hits1 -> ∃ doc, get_dashboard api (h_uid h') = Ok doc) ->
     get_dashboard api (h_uid h) = OtherError ->
     get_all_dashboards api = Raises).
Proof.
  unfold get_all_dashboards. split.
  - by intros ->.
  - intros hits1 h hits2 -> Hok Hfail.
    rewrite fetch_documents_app by done. cbn [fetch_documents]. by rewrite Hfail.
Qed.

Lemma unhandled_error_propagates_witness :
  get_all_dashboards Cases.backend2 = Raises.
Proof.
  apply (proj2 (unhandled_error_propagates Cases.backend2)
           [Hit "d1" "X" (Some "f1")] (Hit "d2" "Y" (Some "f1")) []).
  - reflexivity.
  - intros h' ->%list_elem_of_singleton. by eexists.
  - reflexivity.
Defined.

(** X12: cleaning a document twice is cleaning it once, and the keys of the
    cleaned document are those of the document and [editable], without
    [version], [id] and [gnetId]. *)
Theorem strip_idempotent (doc : document) :
  strip (strip doc) = strip doc ∧
  dom (strip doc) = ({["editable"]} ∪ dom doc) ∖ {["version"; "id"; "gnetId"]}.
Proof.
  split.
  - apply map_eq. intros key.
    destruct (strip_spec (strip doc)) as (H1 & H2 & H3 & H4 & H5).
    destruct (strip_spec doc) as (G1 & G2 & G3 & G4 & G5).
    destruct (decide (key ∈ touched)) as [Hin|Hout]; [|by apply H5].
    unfold touched in Hin.
    repeat (apply elem_of_cons in Hin as [->|Hin]; [congruence|]).
    by apply elem_of_nil in Hin.
  - unfold strip. rewrite !dom_delete_L, dom_insert_L.
    apply set_eq. intros key.
    rewrite !elem_of_difference, !elem_of_union, !elem_of_singleton.
    tauto.
Qed.

End DashboardMore.

(** ** Request URLs *)

Section RequestUrls.
Import Urls.

Lemma rstrip_slash_cons c url :
  rstrip_slash (String c url) =
  match rstrip_slash url with
  | EmptyString => if Ascii.eqb c slash then EmptyString else String c EmptyString
  | rest => String c rest
  end.
Proof. reflexivity. Qed.

Lemma rstrip_slash_slashes n : rstrip_slash (slashes n) = EmptyString.
Proof.
  induction n as [|n IH]; [reflexivity|].
  cbn [slashes]. rewrite rstrip_slash_cons, IH. by rewrite Ascii.eqb_refl.
Qed.

Lemma rstrip_slash_app_slashes url n :
  rstrip_slash (url +:+ slashes n) = rstrip_slash url.
Proof.
  induction url as [|c url IH]; [apply rstrip_slash_slashes|].
  rewrite append_cons, !rstrip_slash_cons. by rewrite IH.
Qed.

Lemma rstrip_slash_fixed url :
  last_char url ≠ Some slash -> rstrip_slash url = url.
Proof.
  induction url as [|c url IH]; [done|].
  rewrite rstrip_slash_cons. destruct url as [|c' url].
  - cbn. intros Hc. destruct (Ascii.eqb_spec c slash) as [->|]; done.
  - intros Hlast. rewrite IH by done. done.
Qed.

(** X13: [rstrip] takes slashes, and only slashes, off the end: the url is
    the result followed by slashes, the result does not end in a slash, and
    a url that does not end in a slash is left as it is. *)
Theorem rstrip_slash_spec url :
  (∃ n, url = rstrip_slash url +:+ slashes n) ∧
  last_char (rstrip_slash url) ≠ Some slash ∧
  (last_char url ≠ Some slash -> rstrip_slash url = url).
Proof.
  split; [|split; [|apply rstrip_slash_fixed]].
  - induction url as [|c url [n IH]]; [by exists 0|].
    rewrite rstrip_slash_cons. destruct (rstrip_slash url) as [|c' rest].
    + rewrite append_empty_l in IH. subst url.
      destruct (Ascii.eqb_spec c slash) as [->|_]; [by exists (S n)|by exists n].
    + exists n. rewrite append_cons. by rewrite <- IH.
  - induction url as [|c url IH]; [done|].
    rewrite rstrip_slash_cons. destruct (rstrip_slash url) as [|c' rest]; [|done].
    destruct (Ascii.eqb_spec c slash) as [->|Hc]; [done|].
    cbn. congruence.
Qed.

(** X14: slashes at the end of [--url] do not change the URL of any
    request. *)
Theorem request_urls_ignore_trailing_slashes url n uid :
  folder_url (url +:+ slashes n) uid = folder_url url uid ∧
  folders_url (url +:+ slashes n) = folders_url url ∧
  search_url (url +:+ slashes n) = search_url url ∧
  dashboard_url (url +:+ slashes n) uid = dashboard_url url uid.
Proof.
  unfold folder_url, folders_url, search_url, dashboard_url.
  by rewrite rstrip_slash_app_slashes.
Qed.

End RequestUrls.

(** ** More on the Folder Fetcher *)

Section FolderNames.
Import Folders Exported.
Variable api : backend.

Lemma foldl_insert_last (response : list folder_json)
    (m : gmap string folder_json) title :
  foldl (fun m folder => <[fj_title folder := folder]> m) m response !! title =
  match last (List.filter (fun folder => bool_decide (fj_title folder = title)) response) with
  | Some folder => Some folder
  | None => m !! title
  end.
Proof.
  revert m. induction response as [|x response IH]; intros m; [done|].
  cbn [foldl List.filter]. rewrite IH.
  destruct (bool_decide_reflect (fj_title x = title)) as [Hx|Hx].
  - rewrite last_cons.
    destruct (last (List.filter _ response)); [done|].
    rewrite Hx. apply lookup_insert_eq.
  - destruct (last (List.filter _ response)); [done|].
    by apply lookup_insert_ne.
Qed.

Lemma folder_map_is_Some response title :
  is_Some (folder_map response !! title) ↔ title ∈ fj_title <$> response.
Proof.
  unfold folder_map. rewrite foldl_insert_last, list_elem_of_fmap. split.
  - destruct (last _) as [f|] eqn:Hf; [|by intros [? ?%lookup_empty_Some]].
    intros _. apply last_Some_elem_of in Hf.
    apply list_elem_of_In, filter_In in Hf as [Hf Ht].
    apply bool_decide_eq_true in Ht. exists f. split; [done|].
    by apply list_elem_of_In.
  - intros (f & -> & Hf).
    destruct (last _) as [g|] eqn:Hg; [by eexists|].
    apply last_None in Hg.
    assert (Hin : In f (List.filter (fun folder =>
                     bool_decide (fj_title folder = fj_title f)) response)).
    { apply filter_In. split; [by apply list_elem_of_In|].
      by apply bool_decide_eq_true. }
    rewrite Hg in Hin. done.
Qed.

(** X15: of several folders of the list with one title, the dict of line 71
    keeps the last; a title no folder has is no key of it. *)
Theorem folder_map_keeps_last response title :
  folder_map response !! title =
    last (List.filter (fun folder => bool_decide (fj_title folder = title)) response) ∧
  (is_Some (folder_map response !! title) ↔ title ∈ fj_title <$> response).
Proof.
  split; [|apply folder_map_is_Some].
  unfold folder_map. rewrite foldl_insert_last. by destruct (last _).
Qed.

Lemma omap_matched response names :
  omap (fun name => fj_uid <$> folder_map response !! name) (matched response names) =
  omap (fun name => fj_uid <$> folder_map response !! name) names.
Proof.
  unfold matched. induction names as [|name names IH]; [done|].
  cbn [List.filter omap list_omap].
  destruct (bool_decide_reflect (name ∈ fj_title <$> response)) as [Hin|Hout].
  - cbn [omap list_omap]. by rewrite IH.
  - rewrite IH.
    destruct (folder_map response !! name) as [f|] eqn:Hf; [|done].
    exfalso. apply Hout, folder_map_is_Some. by eexists.
Qed.

(** X16: the names of [--folder-names] that are no title of the folder list
    are passed over: the result is that for the names that are titles, and
    when none of the names is a title nothing is requested and the result
    is empty. *)
Theorem unmatched_names_skipped limit response names :
  get_folders api = Ok response -> names ≠ [] ->
  (matched response names ≠ [] ->
     get_all_folders api limit (Some names) =
     get_all_folders api limit (Some (matched response names))) ∧
  (matched response names = [] ->
     traverse api limit (Some names) = (init, Normal) ∧
     get_all_folders api limit (Some names) = []).
Proof.
  intros Hget Hnames.
  assert (Hroots : ∀ names', names' ≠ [] ->
    traverse api limit (Some names') =
    for_each (fetch_folder_and_children api limit)
      match response with
      | [] => []
      | _ :: _ => omap (fun name => fj_uid <$> folder_map response !! name) names'
      end init).
  { intros names' Hne. rewrite traverse_roots. unfold roots. rewrite Hget.
    destruct response; [done|]. by destruct names'. }
  split.
  - intros Hm. unfold get_all_folders.
    rewrite (Hroots names Hnames), (Hroots _ Hm). by rewrite omap_matched.
  - intros Hm.
    assert (Hrun : traverse api limit (Some names) = (init, Normal)).
    { rewrite (Hroots names Hnames), <- omap_matched, Hm. by destruct response. }
    split; [done|]. unfold get_all_folders. by rewrite Hrun.
Qed.

End FolderNames.

Lemma unmatched_names_skipped_witness :
  Folders.traverse Scenario.backend1 5 (Some ["Team B"]) = (Folders.init, Normal) ∧
  Folders.get_all_folders Scenario.backend1 5 (Some ["Team B"]) = [].
Proof.
  apply (unmatched_names_skipped Scenario.backend1 5
           [FolderJson "f1" "Team A" None; FolderJson "gc" "GrafanaCloud" None]
           ["Team B"]); [reflexivity|done|reflexivity].
Defined.

Section ExportInvariant.
Import Folders Exported.
Variable api : backend.
Variable folder_names : option (list string).

#[local] Abbreviation inv := (inv api folder_names).
#[local] Abbreviation inv2 := (inv2 api folder_names).
#[local] Abbreviation origin := (origin api folder_names).

Lemma origin_ext st st' uid : ext st st' -> origin st uid -> origin st' uid.
Proof.
  intros (_ & [l Hl] & _) [Hroot|(parent & subs & sub & Hp & Hs & Hin & Hu)];
    [by left|].
  right. exists parent, subs, sub. split; [|done].
  rewrite Hl. apply elem_of_app. by left.
Qed.

Lemma inv2_init : inv2 init.
Proof. split; cbn; [done|by intros uid ?%elem_of_nil]. Qed.

Lemma descended_init : descended api init.
Proof. by intros uid folder ?%elem_of_nil. Qed.

Lemma inv2_visit uid st : inv2 st -> origin st uid -> inv2 (visit uid st).
Proof.
  intros [H1 H3] Horigin. split; cbn.
  - rewrite omap_app. cbn. by rewrite app_nil_r.
  - intros u [Hu|Hu%list_elem_of_singleton]%elem_of_app.
    + eapply origin_ext; [apply (ext_visit uid st)|by apply H3].
    + injection Hu as ->. eapply origin_ext; [apply (ext_visit uid st)|done].
Qed.

(** The state stays as [visit] leaves it when the folder is not fetched or
    is titled GrafanaCloud. *)
Lemma descended_visit uid st :
  descended api st ->
  (∀ folder, get_folder api uid = Ok folder -> fj_title folder = "GrafanaCloud") ->
  descended api (visit uid st).
Proof.
  intros H2 Hstop u folder. cbn.
  intros [Hu|Hu%list_elem_of_singleton]%elem_of_app Hget Htitle.
  - apply elem_of_app. left. by eapply H2.
  - injection Hu as ->. by destruct (Htitle (Hstop folder Hget)).
Qed.

Lemma inv2_record uid folder st :
  inv2 st -> origin st uid ->
  get_folder api uid = Ok folder ->
  inv2 (record uid folder (visit uid st)).
Proof.
  intros [H1 H3] Horigin Hget.
  assert (Hext : ext st (record uid folder (visit uid st)))
    by (eapply ext_trans; [apply ext_visit|apply ext_record]).
  split; cbn.
  - rewrite !omap_app. cbn. rewrite Hget. cbn. by rewrite app_nil_r, H1.
  - intros u [[Hu|Hu%list_elem_of_singleton]%elem_of_app|Hu%list_elem_of_singleton]%elem_of_app;
      [| |done].
    + eapply origin_ext; [done|by apply H3].
    + injection Hu as ->. by eapply origin_ext.
Qed.

Lemma descended_record uid folder st :
  descended api st -> descended api (record uid folder (visit uid st)).
Proof.
  intros H2 u j. cbn.
  intros [[Hu|Hu%list_elem_of_singleton]%elem_of_app|Hu%list_elem_of_singleton]%elem_of_app
    Hj Htitle; [| |done].
  - apply elem_of_app. left. apply elem_of_app. left. by eapply H2.
  - injection Hu as ->. apply elem_of_app. right. by left.
Qed.

Lemma fetch_folder_and_children_inv2 limit uid st :
  reach api folder_names uid -> origin st uid -> inv st -> inv2 st ->
  inv2 (fetch_folder_and_children api limit uid st).1.
Proof.
  revert uid st. induction limit as [|limit IH];
    intros uid st Hreach Horigin Hinv Hinv2; cbn [fetch_folder_and_children];
    (destruct (decide (uid ∈ processed_uids st)) as [Hold|Hnew]; [done|]).
  { by apply inv2_visit. }
  destruct (get_folder api uid) as [folder| | |] eqn:Hfolder;
    [|by apply inv2_visit..].
  destruct (decide (fj_title folder = "GrafanaCloud")) as [Hgc|Htitle].
  { by apply inv2_visit. }
  pose proof (inv2_record uid folder st Hinv2 Horigin Hfolder) as Hinv2'.
  pose proof (inv_record api folder_names uid folder st Hinv Hreach Hnew Hfolder Htitle)
    as Hinv'.
  destruct (get_subfolders api uid) as [subfolders| | |] eqn:Hsubs; [|done..].
  apply (for_each_invariant
           (fun subfolder => fetch_folder_and_children api limit (fj_uid subfolder))
           (fun st => inv st ∧ inv2 st ∧ GetSubfolders uid ∈ sent st)
           subfolders (record uid folder (visit uid st))).
  - intros c st1 Hc (Hi1 & Hi2 & Hsent).
    assert (Hreach' : reach api folder_names (fj_uid c))
      by (eapply reach_sub; eauto).
    destruct (fetch_folder_and_children api limit (fj_uid c) st1) as [st2 o2] eqn:Hcall.
    destruct (fetch_folder_and_children_post api folder_names limit
                (fj_uid c) st1 st2 o2 Hreach' Hi1 Hcall) as [(Hi1' & Hext & _) _].
    split; [done|]. split.
    + pose proof (IH (fj_uid c) st1 Hreach') as Hnext. rewrite Hcall in Hnext.
      apply Hnext; [|done..]. right. by exists uid, subfolders, c.
    + destruct Hext as (_ & [l Hl] & _). cbn. rewrite Hl. apply elem_of_app. by left.
  - split; [done|]. split; [done|]. cbn. apply elem_of_app. right. by left.
Qed.

Lemma traverse_inv2 limit :
  inv (traverse api limit folder_names).1 ∧ inv2 (traverse api limit folder_names).1.
Proof.
  split.
  { destruct (traverse api limit folder_names) as [st o] eqn:Hrun.
    by eapply traverse_post. }
  rewrite traverse_roots.
  assert (Hloop : inv2 (for_each (fetch_folder_and_children api limit)
                          (roots api folder_names) init).1).
  { apply (for_each_invariant (fetch_folder_and_children api limit)
             (fun st => inv st ∧ inv2 st) (roots api folder_names) init);
      [|split; [apply inv_init|apply inv2_init]].
    intros uid st1 Huid [Hi1 Hi2].
    assert (Hreach : reach api folder_names uid) by by apply reach_root.
    destruct (fetch_folder_and_children api limit uid st1) as [st2 o2] eqn:Hcall.
    destruct (fetch_folder_and_children_post api folder_names limit
                uid st1 st2 o2 Hreach Hi1 Hcall) as [(Hi1' & _ & _) _].
    split; [done|].
    pose proof (fetch_folder_and_children_inv2 limit uid st1 Hreach) as Hnext.
    rewrite Hcall in Hnext. apply Hnext; [|done..]. by left. }
  destruct (get_folders api); [done..|apply inv2_init].
Qed.

(** A call that ends normally went down into every folder it fetched. *)
Lemma fetch_folder_and_children_descended limit uid st st' :
  fetch_folder_and_children api limit uid st = (st', Normal) ->
  descended api st -> descended api st'.
Proof.
  revert uid st st'. induction limit as [|limit IH]; intros uid st st';
    cbn [fetch_folder_and_children];
    (destruct (decide (uid ∈ processed_uids st)) as [Hold|Hnew];
       [by intros [= <-]|]); [done|].
  destruct (get_folder api uid) as [folder| | |] eqn:Hfolder;
    [|intros [= <-] Hd; (apply descended_visit; [done|]); intros j Hj; congruence..|done].
  destruct (decide (fj_title folder = "GrafanaCloud")) as [Hgc|Htitle].
  { intros [= <-] Hd. apply descended_visit; [done|]. intros j Hj.
    rewrite Hfolder in Hj. by injection Hj as <-. }
  destruct (get_subfolders api uid) as [subfolders| | |] eqn:Hsubs;
    [|intros [= <-] Hd; by apply descended_record..|done].
  intros Hloop Hd.
  apply (for_each_normal_invariant
           (fun subfolder => fetch_folder_and_children api limit (fj_uid subfolder))
           (descended api) subfolders (record uid folder (visit uid st)) st');
    [|by apply descended_record|done].
  intros c st1 st2 _ Hd1 Hcall. by apply (IH (fj_uid c) st1 st2).
Qed.

Lemma traverse_descended limit st :
  traverse api limit folder_names = (st, Normal) -> descended api st.
Proof.
  rewrite traverse_roots. intros Hrun.
  assert (Hloop : st = init ∨
    for_each (fetch_folder_and_children api limit) (roots api folder_names) init
      = (st, Normal)).
  { destruct (get_folders api); auto. left. by injection Hrun as <-. }
  destruct Hloop as [->|Hloop]; [apply descended_init|].
  apply (for_each_normal_invariant (fetch_folder_and_children api limit)
           (descended api) (roots api folder_names) init st);
    [|apply descended_init|done].
  intros uid st1 st2 _ Hd1 Hcall.
  by apply (fetch_folder_and_children_descended limit uid st1 st2).
Qed.

End ExportInvariant.

Section ExportClaims.
Import Folders Exported.

Lemma entry_Some api r f :
  entry api r = Some f ->
  ∃ uid folder, r = GetSubfolders uid ∧ get_folder api uid = Ok folder ∧
                f = folder_of folder.
Proof.
  destruct r as [uid|uid]; [done|]. cbn.
  destruct (get_folder api uid) as [folder| | |] eqn:Hget; try done.
  intros [= <-]. by exists uid, folder.
Qed.

Lemma entries_distinct api (l : list request) :
  faithful api -> NoDup l -> NoDup (f_uid <$> omap (entry api) l).
Proof.
  intros Hf. induction 1 as [|r l Hr Hl IH]; [constructor|].
  cbn [omap list_omap]. destruct (entry api r) as [f|] eqn:Hentry; [|done].
  rewrite fmap_cons. apply NoDup_cons. split; [|done].
  intros (g & Heq & (r' & Hr' & Hg)%list_elem_of_omap)%list_elem_of_fmap.
  apply entry_Some in Hentry as (u & j & -> & Hj & ->).
  apply entry_Some in Hg as (u' & j' & -> & Hj' & ->).
  cbn in Heq. rewrite (Hf _ _ Hj), (Hf _ _ Hj') in Heq. by subst u'.
Qed.

(** X17: when the backend answers the request for a folder with the folder
    of that uid, no two folders of the result share a uid. *)
Theorem exported_uids_distinct api limit folder_names :
  faithful api ->
  NoDup (f_uid <$> get_all_folders api limit folder_names).
Proof.
  intros Hf. unfold get_all_folders.
  destruct (traverse_inv2 api folder_names limit) as [[_ Hnd _ _ _] [Hall _]].
  rewrite Hall. by apply entries_distinct.
Qed.

(** X18: when no request ends in an exception the program does not handle
    in place, and the recursion limit leaves room for as many nested calls
    as the backend names uids, every folder that can be arrived at, is
    fetched and is not titled GrafanaCloud is in the result: a failure
    leaves out the folders behind it and no others. *)
Theorem reachable_folders_exported api limit folder_names U uid folder :
  handled api -> bounded api U -> size U ≤ limit ->
  reach api folder_names uid ->
  get_folder api uid = Ok folder -> fj_title folder ≠ "GrafanaCloud" ->
  folder_of folder ∈ get_all_folders api limit folder_names.
Proof.
  intros Hh Hb Hsize Hreach Hget Htitle. unfold get_all_folders.
  pose proof (traverse_normal api folder_names U limit Hh Hb Hsize) as Ho.
  destruct (traverse_inv2 api folder_names limit) as [[Hproc _ _ _ _] [Hall _]].
  destruct (traverse api limit folder_names) as [st o] eqn:Hrun.
  cbn [fst snd] in *. subst o.
  pose proof (traverse_descended api folder_names limit st Hrun) as Hdesc.
  rewrite Hall. apply list_elem_of_omap. exists (GetSubfolders uid). split.
  - eapply Hdesc; [|done..]. apply Hproc. by eapply traverse_complete.
  - cbn. by rewrite Hget.
Qed.

(** X19: when the backend answers the request for a folder with the folder
    of that uid, and a folder that names a parent is no root and is listed
    under that parent only, the parent of every folder of the result is in
    the result, so that every dependency of a folder block names a folder
    block of the text. *)
Theorem exported_parents_closed api limit folder_names :
  faithful api -> listed_under_parent api folder_names ->
  Terraform.parent_closed (get_all_folders api limit folder_names) ∧
  ∀ b target,
    b ∈ Terraform.folder_blocks (get_all_folders api limit folder_names) ->
    Terraform.fb_depends_on b = Some target ->
    ∃ b', b' ∈ Terraform.folder_blocks (get_all_folders api limit folder_names) ∧
          Terraform.fb_name b' = target.
Proof.
  intros Hf Hlisted. unfold get_all_folders.
  destruct (traverse_inv2 api folder_names limit) as [[_ _ Hsub _ _] [Hall Horigin]].
  destruct (traverse api limit folder_names) as [st o]. cbn [fst] in *.
  assert (Hclosed : Terraform.parent_closed (all_folders st)).
  { intros f p. rewrite Hall.
    intros (r & Hr & Hentry)%list_elem_of_omap Hp.
    apply entry_Some in Hentry as (u & j & -> & Hj & ->). cbn in Hp.
    destruct (Hlisted u j p Hj Hp) as [Hroot Hparent].
    destruct (Hsub u Hr) as [Hu _].
    destruct (Horigin u Hu) as [?|(parent & subs & sub & Hsent & Hsubs & Hin & Heq)];
      [done|].
    rewrite (Hparent parent subs sub Hsubs Hin Heq) in Hsent.
    destruct (Hsub p Hsent) as (_ & jp & Hjp & _).
    exists (folder_of jp). split; [|by apply Hf].
    apply list_elem_of_omap. exists (GetSubfolders p). split; [done|].
    cbn. by rewrite Hjp. }
  split; [done|].
  intros b target (f & Hin & ->)%elem_of_folder_blocks. cbn.
  destruct (truthy (f_parent_uid f)) as [p|] eqn:Hp; [|done].
  intros [= <-]. destruct (Hclosed f p Hin Hp) as (g & Hg & <-).
  exists (Terraform.folder_block_of g). split; [|done].
  apply elem_of_folder_blocks. by exists g.
Qed.

End ExportClaims.

Section ExportWitnesses.
Import Folders Exported.

Lemma backend3_faithful : faithful Cases.backend3.
Proof.
  intros uid folder. cbn. repeat case_decide; intros [= <-]; by subst.
Qed.

Lemma backend3_handled : handled Cases.backend3.
Proof.
  split; [done|]. intros uid. split; cbn; repeat case_decide; done.
Qed.

Lemma backend3_listed : listed_under_parent Cases.backend3 None.
Proof.
  intros uid folder p. cbn.
  repeat case_decide; intros [= <-] Hp; cbn in Hp; try done.
  injection Hp as <-. subst uid. split.
  - cbn. by intros ?%list_elem_of_singleton.
  - intros parent subs sub. cbn.
    case_decide; intros [= <-] Hin _; [done|by apply elem_of_nil in Hin].
Qed.

Lemma backend3_reach_f2 : reach Cases.backend3 None "f2".
Proof.
  apply (reach_sub Cases.backend3 None "f1" (FolderJson "f1" "Team A" None)
           [FolderJson "f2" "Team A / Sub" (Some "f1")]
           (FolderJson "f2" "Team A / Sub" (Some "f1")));
    [|reflexivity|done|reflexivity|by left].
  apply reach_root. cbn. by left.
Qed.

Lemma backend3_bounded : bounded Cases.backend3 Cases.uids3.
Proof.
  split.
  - intros response folder [= <-] ->%list_elem_of_singleton.
    apply elem_of_union_l. by apply elem_of_singleton.
  - intros uid subfolders subfolder _. cbn.
    case_decide; intros [= <-] Hin; [|by apply elem_of_nil in Hin].
    apply list_elem_of_singleton in Hin as ->.
    apply elem_of_union_r. by apply elem_of_singleton.
Qed.

Lemma exported_uids_distinct_witness :
  NoDup (f_uid <$> get_all_folders Cases.backend3 3 None).
Proof.
  exact (exported_uids_distinct Cases.backend3 3 None backend3_faithful).
Defined.

Lemma reachable_folders_exported_witness :
  folder_of (FolderJson "f2" "Team A / Sub" (Some "f1")) ∈
    get_all_folders Cases.backend3 3 None.
Proof.
  refine (reachable_folders_exported Cases.backend3 3 None Cases.uids3 "f2" _
            backend3_handled backend3_bounded _ backend3_reach_f2 eq_refl
            ltac:(discriminate)).
  vm_compute. lia.
Defined.

Lemma exported_parents_closed_witness :
  Terraform.parent_closed (get_all_folders Cases.backend3 3 None).
Proof.
  exact (proj1 (exported_parents_closed Cases.backend3 3 None
                  backend3_faithful backend3_listed)).
Defined.

End ExportWitnesses.

(** ** Orchestrator *)

Section Orchestrator.
Import Folders Dashboards Terraform Main.

(** X20: the run ends in an exception only when the Dashboard Fetcher
    raises, and then nothing is written, or when the directory cannot be
    made or a file cannot be written.  When the fetcher returns and the
    directory and the files can be written, one JSON file is written per
    selected dashboard that is not skipped, then [grafana.tf], whose
    dashboard blocks all refer to folder blocks of the same text. *)
Theorem main_writes_artifact api fs limit folder_names skip folders :
  get_all_folders api limit folder_names = folders ->
  (get_all_dashboards api = Raises ->
     main api fs limit folder_names skip = ([], Raised)) ∧
  (∀ ds, get_all_dashboards api = Returns ds ->
     (makedirs fs = true ->
      all_writable fs (not_skipped skip (target_dashboards ds folders)) ->
      writable fs "grafana.tf" = true ->
      ∃ dbs,
        main api fs limit folder_names skip =
          ((prod_map id Json <$>
              documents_of (not_skipped skip (target_dashboards ds folders))) ++
           [("grafana.tf", Text (render (folder_blocks folders) dbs))],
           Normal) ∧
        dashboard_blocks (not_skipped skip (target_dashboards ds folders)) = Some dbs ∧
        ∀ b, b ∈ dbs -> ∃ fb, fb ∈ folder_blocks folders ∧ fb_name fb = db_folder b) ∧
     ((main api fs limit folder_names skip).2 = Raised ->
      makedirs fs = false ∨
      (∃ d, d ∈ not_skipped skip (target_dashboards ds folders) ∧
            writable fs (dashboard_path (d_uid d)) = false) ∨
      writable fs "grafana.tf" = false)).
Proof.
  intros Hfolders. unfold main. rewrite Hfolders. split; [by intros ->|].
  intros ds ->.
  destruct (dashboard_blocks_Some (not_skipped skip (target_dashboards ds folders)))
    as [dbs Hdbs].
  { intros d [(_ & f & _ & Hf)%elem_of_target_dashboards _]%elem_of_not_skipped.
    by eexists. }
  split.
  - intros Hmk Hw Htf. exists dbs.
    rewrite (generate_terraform_returns _ _ _ _ _ Hmk Hw Hdbs), Htf.
    split; [done|]. split; [done|].
    intros b Hb. destruct (dashboard_blocks_elem _ _ _ Hdbs Hb) as (d & Hd & Hbd).
    apply elem_of_not_skipped in Hd as [(_ & f & Hf & Hfu)%elem_of_target_dashboards _].
    unfold dashboard_block_of in Hbd. rewrite Hfu in Hbd. injection Hbd as <-.
    exists (folder_block_of f). split; [|reflexivity].
    apply elem_of_folder_blocks. by exists f.
  - destruct (generate_terraform fs skip folders (target_dashboards ds folders))
      as [written [text|]] eqn:Hgen.
    + destruct (writable fs "grafana.tf"); [done|]. intros _. by right; right.
    + intros _. unfold generate_terraform in Hgen.
      destruct (makedirs fs); [|by left]. right. left.
      eapply (dashboard_loop_unwritable _ _ _ _ _ _ Hdbs). by rewrite Hgen.
Qed.

Lemma main_writes_artifact_witness :
  main Cases.backend2 Scenario.disk 3 None ∅ = ([], Raised).
Proof.
  apply (proj1 (main_writes_artifact Cases.backend2 Scenario.disk 3 None ∅ _ eq_refl)).
  reflexivity.
Defined.

(** X21: when the backend names finitely many uids, the result of the run
    does not depend on the recursion limit, as long as the limit leaves room
    for as many nested calls as the backend names uids. *)
Theorem main_terminates api fs folder_names skip U :
  bounded api U ->
  ∃ files o, ∀ limit, size U ≤ limit ->
    main api fs limit folder_names skip = (files, o).
Proof.
  intros Hb.
  destruct (main api fs (size U) folder_names skip) as [files o] eqn:Hmain.
  exists files, o. intros limit Hlimit. rewrite <- Hmain. unfold main, get_all_folders.
  by rewrite (traverse_limit api folder_names U limit (size U) Hb Hlimit (le_n _)).
Qed.

Lemma main_terminates_witness :
  ∃ files o, ∀ limit, size Cases.uids3 ≤ limit ->
    main Cases.backend3 Scenario.disk limit None ∅ = (files, o).
Proof.
  exact (main_terminates Cases.backend3 Scenario.disk None ∅ Cases.uids3
           backend3_bounded).
Defined.

(** X22: every JSON file of a run holds the cleaned document of a search
    hit that is not skipped and whose folder is one of the folders fetched,
    under the name made of the uid of the hit. *)
Theorem main_files_traced api fs limit folder_names skip files o path doc :
  main api fs limit folder_names skip = (files, o) ->
  (path, Json doc) ∈ files ->
  ∃ folders hits h raw f,
    get_all_folders api limit folder_names = folders ∧
    search api = Ok hits ∧ h ∈ hits ∧
    get_dashboard api (h_uid h) = Ok raw ∧
    f ∈ folders ∧ h_folderUid h = Some (f_uid f) ∧
    (dashboard_resource_id (h_uid h) ∉ skip) ∧
    path = dashboard_path (h_uid h) ∧ doc = strip raw.
Proof.
  unfold main. set (folders := get_all_folders api limit folder_names).
  destruct (get_all_dashboards api) as [ds|] eqn:Hds;
    [|by intros [= <- _] ?%elem_of_nil].
  destruct (generate_terraform fs skip folders (target_dashboards ds folders))
    as [written r] eqn:Hgen.
  assert (Hwritten : ∀ file, file ∈ written ->
            file ∈ documents_of (not_skipped skip (target_dashboards ds folders))).
  { intros file Hfile. unfold generate_terraform in Hgen.
    destruct (makedirs fs); [|injection Hgen as <- _; by apply elem_of_nil in Hfile].
    pose proof (dashboard_loop_written fs skip
      (target_dashboards ds folders) (folder_loop folders EmptyString) [] file) as H.
    rewrite Hgen in H. by destruct (H Hfile) as [?%elem_of_nil|?]. }
  intros Hmain Hin.
  assert (Hjson : (path, Json doc) ∈ prod_map id Json <$> written).
  { destruct r as [text|]; [destruct (writable fs "grafana.tf")|];
      injection Hmain as <- _; [|done..].
    by apply elem_of_app in Hin as [Hin|Hin%list_elem_of_singleton]. }
  assert (Hfile : (path, doc) ∈ written).
  { by apply list_elem_of_fmap in Hjson as ([p d] & [= -> ->] & Hin'). }
  apply Hwritten, list_elem_of_fmap in Hfile as (d & [= -> ->] & Hd).
  apply elem_of_not_skipped in Hd as [(Hd & f & Hf & Hfu)%elem_of_target_dashboards Hskip].
  unfold get_all_dashboards in Hds.
  destruct (search api) as [hits| | |] eqn:Hsearch;
    [|injection Hds as <-; by apply elem_of_nil in Hd..|done].
  destruct (fetch_documents_elem api hits [] ds d Hds Hd)
    as [?%elem_of_nil|(h & raw & Hh & Hraw & ->)]; [done|].
  by exists folders, hits, h, raw, f.
Qed.

Lemma main_files_traced_witness :
  ∃ folders hits h raw f,
    get_all_folders Cases.backend3 3 None = folders ∧
    search Cases.backend3 = Ok hits ∧ h ∈ hits ∧
    get_dashboard Cases.backend3 (h_uid h) = Ok raw ∧
    f ∈ folders ∧ h_folderUid h = Some (f_uid f) ∧
    (dashboard_resource_id (h_uid h) ∉ (∅ : gset string)) ∧
    dashboard_path "d1" = dashboard_path (h_uid h) ∧
    strip Scenario.x_document = strip raw.
Proof.
  eapply (main_files_traced Cases.backend3 Scenario.disk 3 None ∅ _ _
            (dashboard_path "d1") (strip Scenario.x_document)).
  - reflexivity.
  - left.
Defined.

End Orchestrator.

(** ** The skip set *)

Section SkipSet.
Import Skip.

Lemma split_comma_cons c s :
  split_comma (String c s) =
  if Ascii.eqb c comma then EmptyString :: split_comma s
  else match split_comma s with
       | part :: parts => String c part :: parts
       | [] => [String c EmptyString]
       end.
Proof. reflexivity. Qed.

Lemma split_comma_nonempty s : split_comma s ≠ [].
Proof.
  destruct s as [|c s]; [done|]. rewrite split_comma_cons.
  destruct (Ascii.eqb c comma); [done|]. by destruct (split_comma s).
Qed.

Lemma join_comma_cons part parts :
  parts ≠ [] -> join_comma (part :: parts) = part +:+ String comma (join_comma parts).
Proof. by destruct parts. Qed.

(** X23: [split] loses nothing: joining the parts with commas gives the
    string back, no part holds a comma, and there is one part more than
    there are commas. *)
Theorem split_comma_spec s :
  join_comma (split_comma s) = s ∧
  (∀ part, part ∈ split_comma s -> occurs comma part = false) ∧
  List.length (split_comma s) = S (commas s).
Proof.
  induction s as [|c s (IH1 & IH2 & IH3)].
  - split; [done|]. split; [|done]. by intros part ->%list_elem_of_singleton.
  - rewrite split_comma_cons. cbn [commas].
    pose proof (split_comma_nonempty s) as Hne.
    destruct (Ascii.eqb_spec c comma) as [->|Hc].
    + split; [|split].
      * rewrite join_comma_cons by done. by rewrite IH1.
      * intros part [->|Hpart]%elem_of_cons; [done|by apply IH2].
      * cbn [List.length]. by rewrite IH3.
    + destruct (split_comma s) as [|part parts]; [done|]. split; [|split].
      * destruct parts as [|part' parts].
        -- cbn in IH1 |- *. by rewrite IH1.
        -- rewrite join_comma_cons in IH1 |- * by done.
           rewrite append_cons. by rewrite IH1.
      * intros part' [->|Hpart]%elem_of_cons.
        -- cbn [occurs]. rewrite (IH2 part) by by left.
           rewrite orb_false_r. apply Ascii.eqb_neq. congruence.
        -- apply IH2. by right.
      * exact IH3.
Qed.

Lemma split_comma_app part s :
  occurs comma part = false ->
  split_comma (part +:+ String comma s) = part :: split_comma s.
Proof.
  induction part as [|c part IH]; intros Hpart.
  - rewrite append_empty_l, split_comma_cons. by rewrite Ascii.eqb_refl.
  - cbn [occurs] in Hpart. apply orb_false_iff in Hpart as [Hc Hpart].
    rewrite append_cons, split_comma_cons, (IH Hpart).
    rewrite Ascii.eqb_sym in Hc. by rewrite Hc.
Qed.

Lemma split_comma_single part :
  occurs comma part = false -> split_comma part = [part].
Proof.
  induction part as [|c part IH]; intros Hpart; [done|].
  cbn [occurs] in Hpart. apply orb_false_iff in Hpart as [Hc Hpart].
  rewrite split_comma_cons, (IH Hpart).
  rewrite Ascii.eqb_sym in Hc. by rewrite Hc.
Qed.

Lemma split_join_comma parts :
  parts ≠ [] -> (∀ part, part ∈ parts -> occurs comma part = false) ->
  split_comma (join_comma parts) = parts.
Proof.
  induction parts as [|part parts IH]; [done|]. intros _ Hparts.
  destruct parts as [|part' parts].
  - cbn. apply split_comma_single, Hparts. by left.
  - rewrite join_comma_cons by done.
    rewrite split_comma_app by (apply Hparts; by left).
    rewrite IH; [done..|]. intros p Hp. apply Hparts. by right.
Qed.

(** X24: a list of identifiers without commas, joined with commas and given
    as [--skip-resources], makes the set of those identifiers, when [strip]
    leaves each of them as it is; an unset or empty option makes the empty
    set. *)
Theorem skip_resources_of_list (strip : string -> string) ids :
  ids ≠ [] -> join_comma ids ≠ EmptyString ->
  (∀ id, id ∈ ids -> occurs comma id = false ∧ strip id = id) ->
  skip_resources strip (Some (join_comma ids)) = list_to_set ids ∧
  skip_resources strip None = ∅ ∧
  skip_resources strip (Some EmptyString) = ∅.
Proof.
  intros Hne Hjoin Hids. split; [|done].
  unfold skip_resources. rewrite decide_False by done.
  rewrite split_join_comma; [|done|by intros id [? _]%Hids].
  f_equal. clear Hne Hjoin. induction ids as [|id ids IH]; [done|].
  rewrite fmap_cons. destruct (Hids id) as [_ ->]; [by left|].
  f_equal. apply IH. intros id' Hid'. apply Hids. by right.
Qed.

Lemma skip_resources_of_list_witness :
  skip_resources id (Some (join_comma ["d_d1"; "d_d2"])) = list_to_set ["d_d1"; "d_d2"].
Proof.
  apply (skip_resources_of_list id ["d_d1"; "d_d2"]); [done|done|].
  intros x Hx.
  repeat (apply elem_of_cons in Hx as [->|Hx]; [by split|]).
  by apply elem_of_nil in Hx.
Defined.

End SkipSet.
